(** * SolGuard AI vulnerability detector: shallow embedding and specification check

    Embedding of [app/ai_detector.py] (class [AIVulnerabilityDetector]).

    - Source text is a [string]: a sequence of characters with code points
      0..255.  Case mapping and the regular-expression classes [\s], [\w]
      are Python's on that range, but for the capitals of code points 181
      and 255, which lie beyond it.  Text with characters beyond code point
      255 is outside the embedding: there [re.IGNORECASE] and [str.lower]
      part ways, so a statement that ties a match of a pattern to the
      lower-cased source is kept to ASCII sources.
    - A Python [float] is the rational number it denotes; every arithmetic
      operation is the exact operation followed by [F64.rnd], rounding to
      the nearest binary64 value (ties to even, gradual underflow).  On
      every source, and on findings within the ranges of the data model,
      no computation of the detector leaves the finite range; infinities,
      NaN and the [OverflowError] raised beyond it are not modelled, and a
      statement on a score is kept to such findings.
    - A finding is the dictionary built by the detector; a key may be
      absent, which is what the [.get(key, default)] calls provide for.
    - The clock read by [_get_timestamp] is an argument of
      [analyze_program]. *)

From Stdlib Require Import Bool Arith ZArith QArith Qround Qabs Qpower Lia List.
From Stdlib Require Import Ascii String Sorting.Permutation Sorting.Sorted.
From Stdlib Require Import Floats.
Import ListNotations.

Local Open Scope string_scope.
Local Open Scope list_scope.

(* ================================================================== *)
(** ** Python string primitives *)
(* ================================================================== *)

Module Py.

Definition ord (c : ascii) : nat := nat_of_ascii c.

Definition in_range (lo hi n : nat) : bool := (lo <=? n)%nat && (n <=? hi)%nat.

(** [str.lower] on one character: A-Z and the Latin-1 capitals. *)
Definition lower_char (c : ascii) : ascii :=
  let n := ord c in
  if in_range 65 90 n || (in_range 192 222 n && negb (n =? 215)%nat)
  then ascii_of_nat (n + 32) else c.

(** [str.upper] on one character whose capital is one character.  Code
    points 181 and 255, whose capital lies above code point 255, are left
    unchanged. *)
Definition upper_char (c : ascii) : ascii :=
  let n := ord c in
  if in_range 97 122 n || (in_range 224 254 n && negb (n =? 247)%nat)
  then ascii_of_nat (n - 32) else c.

Fixpoint map_chars (f : ascii -> ascii) (s : string) : string :=
  match s with
  | EmptyString => EmptyString
  | String c t => String (f c) (map_chars f t)
  end.

Definition lower (s : string) : string := map_chars lower_char s.

(** [str.upper]: the capital of code point 223 is the two letters SS. *)
Fixpoint upper (s : string) : string :=
  match s with
  | EmptyString => EmptyString
  | String c t =>
      if (ord c =? 223)%nat then String "S" (String "S" (upper t))
      else String (upper_char c) (upper t)
  end.

(** [str.isascii] *)
Fixpoint isascii (s : string) : bool :=
  match s with
  | EmptyString => true
  | String c t => (ord c <? 128)%nat && isascii t
  end.

(** [s.startswith(p)] *)
Fixpoint starts_with (p s : string) : bool :=
  match p, s with
  | EmptyString, _ => true
  | String a p', String b s' => Ascii.eqb a b && starts_with p' s'
  | String _ _, EmptyString => false
  end.

(** [c in s] for a single character [c] *)
Fixpoint has_char (c : ascii) (s : string) : bool :=
  match s with
  | EmptyString => false
  | String a t => Ascii.eqb a c || has_char c t
  end.

(** [p in s] *)
Fixpoint contains (s p : string) : bool :=
  starts_with p s ||
  match s with
  | EmptyString => false
  | String _ t => contains t p
  end.

(** [s[n:]] for a natural [n] *)
Fixpoint drop (n : nat) (s : string) : string :=
  match n, s with
  | O, _ => s
  | S n', String _ t => drop n' t
  | S _, EmptyString => EmptyString
  end.

(** [s[:n]] for a natural [n] *)
Fixpoint take (n : nat) (s : string) : string :=
  match n, s with
  | S n', String c t => String c (take n' t)
  | _, _ => EmptyString
  end.

(** [s[i:j]] for naturals [i], [j] *)
Definition slice (i j : nat) (s : string) : string := take (j - i) (drop i s).

(** [s.count(p)] for a non-empty [p]: occurrences found left to right,
    none overlapping the one before.  [skip] characters of [s] belong to
    the occurrence just counted. *)
Fixpoint count_from (p : string) (skip : nat) (s : string) : nat :=
  match s with
  | EmptyString => 0
  | String _ t =>
      match skip with
      | S k => count_from p k t
      | O => if starts_with p s
             then S (count_from p (String.length p - 1) t)
             else count_from p 0 t
      end
  end.

Definition count (s p : string) : nat :=
  match p with
  | EmptyString => S (String.length s)
  | _ => count_from p 0 s
  end.

(** [s.replace(old, new)] for a non-empty [old] *)
Fixpoint replace_from (old new : string) (skip : nat) (s : string) : string :=
  match s with
  | EmptyString => EmptyString
  | String c t =>
      match skip with
      | S k => replace_from old new k t
      | O => if starts_with old s
             then new ++ replace_from old new (String.length old - 1) t
             else String c (replace_from old new 0 t)
      end
  end.

(** [s.replace(old, new)]; an empty [old] puts [new] around every character. *)
Fixpoint intersperse (new s : string) : string :=
  match s with
  | EmptyString => new
  | String c t => new ++ String c (intersperse new t)
  end.

Definition replace (s old new : string) : string :=
  match old with
  | EmptyString => intersperse new s
  | _ => replace_from old new 0 s
  end.

(** [str(z)] for an integer *)
Definition digit (n : Z) : ascii := ascii_of_N (Z.to_N (48 + n)).

Fixpoint str_digits (fuel : nat) (n : Z) (acc : string) : string :=
  match fuel with
  | O => acc
  | S f =>
      let acc' := String (digit (n mod 10)) acc in
      if (n <? 10)%Z then acc' else str_digits f (n / 10) acc'
  end.

Definition str_int (z : Z) : string :=
  let digits := str_digits (S (Z.to_nat (Z.log2 (Z.abs z)))) (Z.abs z) EmptyString in
  if (z <? 0)%Z then "-" ++ digits else digits.

End Py.

(* ================================================================== *)
(** ** Binary64 arithmetic on rationals *)
(* ================================================================== *)

Module F64.

Local Open Scope Q_scope.

Definition pow2 (e : Z) : Q := Qpower 2 e.

(** Largest [k] with [2^k <= q], for [q > 0]. *)
Definition ilog2 (q : Q) : Z :=
  let c := (Z.log2 (Qnum q) - Z.log2 (Zpos (Qden q)))%Z in
  if Qle_bool (pow2 c) q then c else (c - 1)%Z.

(** Nearest integer, ties to the even one. *)
Definition rne (q : Q) : Z :=
  let f := Qfloor q in
  match Qcompare (q - inject_Z f) (1 # 2) with
  | Lt => f
  | Gt => (f + 1)%Z
  | Eq => if Z.even f then f else (f + 1)%Z
  end.

(** Exponent of the unit in the last place of the binary64 format at [q]:
    53 significant bits, smallest exponent -1074. *)
Definition ulp_exp (q : Q) : Z := Z.max (ilog2 q - 52) (-1074).

Definition rnd_pos (q : Q) : Q :=
  let e := ulp_exp q in
  Qred (inject_Z (rne (q / pow2 e)) * pow2 e).

(** Round to the nearest binary64 value. *)
Definition rnd (q : Q) : Q :=
  match Qcompare q 0 with
  | Eq => 0
  | Gt => rnd_pos q
  | Lt => - rnd_pos (- q)
  end.

Definition add (x y : Q) : Q := rnd (x + y).
Definition sub (x y : Q) : Q := rnd (x - y).
Definition mul (x y : Q) : Q := rnd (x * y).
Definition div (x y : Q) : Q := rnd (x / y).

(** [float(z)] *)
Definition of_int (z : Z) : Q := rnd (inject_Z z).

(** A decimal literal [n/d] of the program text, as Python reads it. *)
Definition lit (n : Z) (d : positive) : Q := rnd (n # d).

(** [int(x)]: truncation toward zero. *)
Definition trunc (x : Q) : Z := Z.quot (Qnum x) (Zpos (Qden x)).


Definition leb (x y : Q) : bool := Qle_bool x y.
Definition ltb (x y : Q) : bool := negb (Qle_bool y x).

(** [min(x, y)] and [max(x, y)] of Python: the first argument wins ties. *)
Definition min (x y : Q) : Q := if ltb y x then y else x.
Definition max (x y : Q) : Q := if ltb x y then y else x.

Definition abs (x : Q) : Q := Qabs x.

(** The rational denoted by a finite primitive float of the kernel; used
    only to compare [rnd] with the kernel's binary64 arithmetic. *)
Definition of_prim (f : PrimFloat.float) : option Q :=
  match FloatOps.Prim2SF f with
  | SpecFloat.S754_zero _ => Some 0
  | SpecFloat.S754_finite s m e =>
      Some (Qred ((if s then -1 else 1) * inject_Z (Zpos m) * pow2 e))
  | _ => None
  end.

(** [f"{x:.2f}"] for [x >= 0] *)
Definition two_digits (n : Z) : string :=
  String (Py.digit (n / 10)) (String (Py.digit (n mod 10)) EmptyString).

Definition format_2f (x : Q) : string :=
  let n := rne (Qabs x * 100) in
  ((if ltb x 0 then "-" else EmptyString) ++
   Py.str_int (n / 100) ++ "." ++ two_digits (n mod 100))%string.

End F64.

(* ================================================================== *)
(** ** Regular expressions of Python's [re], backtracking semantics *)
(* ================================================================== *)

Module Re.

Local Open Scope nat_scope.

(** The constructs used by the pattern catalogue.  Literals are matched
    without regard to case ([re.IGNORECASE]); [.] stops at a line feed (no
    [re.DOTALL]); [re.MULTILINE] only changes [^] and [$], which no
    pattern uses. *)
Inductive regex : Type :=
| Eps
| Lit (c : ascii)
| Dot
| WhiteSpace
| WordChar
| Seq (r1 r2 : regex)
| Alt (r1 r2 : regex)
| Star (r : regex)
| NotAhead (r : regex).

Fixpoint text (s : string) : regex :=
  match s with
  | EmptyString => Eps
  | String c t => Seq (Lit c) (text t)
  end.

Definition Plus (r : regex) : regex := Seq r (Star r).

Definition is_newline (c : ascii) : bool := (Py.ord c =? 10)%nat.

(** [\s] on code points 0..255 *)
Definition is_space (c : ascii) : bool :=
  let n := Py.ord c in
  Py.in_range 9 13 n || Py.in_range 28 32 n || (n =? 133)%nat || (n =? 160)%nat.

(** [\w] on code points 0..255 *)
Definition is_word (c : ascii) : bool :=
  let n := Py.ord c in
  Py.in_range 48 57 n || Py.in_range 65 90 n || (n =? 95)%nat ||
  Py.in_range 97 122 n ||
  (n =? 170)%nat || (n =? 178)%nat || (n =? 179)%nat || (n =? 181)%nat ||
  (n =? 185)%nat || (n =? 186)%nat || Py.in_range 188 190 n ||
  Py.in_range 192 214 n || Py.in_range 216 246 n || Py.in_range 248 255 n.

Definition one_char (p : ascii -> bool) (s : string)
  (k : string -> option string) : option string :=
  match s with
  | String a t => if p a then k t else None
  | EmptyString => None
  end.

(** [exec r s k]: match [r] at the head of [s], then continue with [k] on
    what is left; alternatives are tried in the order of the backtracking
    matcher (left branch first, longest repetition first).  The result is
    the text left after the whole match. *)
Fixpoint exec (r : regex) (s : string) (k : string -> option string)
  {struct r} : option string :=
  match r with
  | Eps => k s
  | Lit c => one_char (fun a => Ascii.eqb (Py.lower_char a) (Py.lower_char c)) s k
  | Dot => one_char (fun a => negb (is_newline a)) s k
  | WhiteSpace => one_char is_space s k
  | WordChar => one_char is_word s k
  | Seq r1 r2 => exec r1 s (fun s1 => exec r2 s1 k)
  | Alt r1 r2 =>
      match exec r1 s k with
      | Some rest => Some rest
      | None => exec r2 s k
      end
  | Star r1 =>
      (fix iter (fuel : nat) (s : string) {struct fuel} : option string :=
         match fuel with
         | O => k s
         | S fuel' =>
             match exec r1 s (fun s1 =>
                     if (String.length s1 <? String.length s)%nat
                     then iter fuel' s1 else None) with
             | Some rest => Some rest
             | None => k s
             end
         end) (String.length s) s
  | NotAhead r1 =>
      match exec r1 s Some with
      | Some _ => None
      | None => k s
      end
  end.

(** [re.match]-like: the length of the match of [r] at the head of [s]. *)
Definition match_here (r : regex) (s : string) : option nat :=
  match exec r s Some with
  | Some rest => Some (String.length s - String.length rest)
  | None => None
  end.

(** [re.finditer]: the spans [(start, end)] of the matches, left to right,
    none overlapping the one before.  [skip] characters still belong to the
    last match; [pos] is the index of the head of [s] in the source. *)
Fixpoint scan (r : regex) (skip pos : nat) (s : string) : list (nat * nat) :=
  match s with
  | EmptyString =>
      match skip, match_here r EmptyString with
      | O, Some _ => [(pos, pos)]
      | _, _ => []
      end
  | String _ t =>
      match skip with
      | S k => scan r k (S pos) t
      | O =>
          match match_here r s with
          | Some n => (pos, pos + n) :: scan r (n - 1) (S pos) t
          | None => scan r 0 (S pos) t
          end
      end
  end.

Definition finditer (r : regex) (s : string) : list (nat * nat) := scan r 0 0 s.

End Re.

(* ================================================================== *)
(** ** Data model *)
(* ================================================================== *)

(** [class VulnerabilityType(Enum)] *)
Inductive VulnerabilityType : Type :=
| REENTRANCY
| INTEGER_OVERFLOW
| UNAUTHORIZED_ACCESS
| MISSING_SIGNER_CHECK
| UNINITIALIZED_ACCOUNT
| ARITHMETIC_ERROR
| LOGIC_ERROR
| FRONT_RUNNING
| TIMESTAMP_DEPENDENCY
| QUANTUM_VULNERABLE.

(** [VulnerabilityType.value] *)
Definition value (t : VulnerabilityType) : string :=
  match t with
  | REENTRANCY => "reentrancy"
  | INTEGER_OVERFLOW => "integer_overflow"
  | UNAUTHORIZED_ACCESS => "unauthorized_access"
  | MISSING_SIGNER_CHECK => "missing_signer_check"
  | UNINITIALIZED_ACCOUNT => "uninitialized_account"
  | ARITHMETIC_ERROR => "arithmetic_error"
  | LOGIC_ERROR => "logic_error"
  | FRONT_RUNNING => "front_running"
  | TIMESTAMP_DEPENDENCY => "timestamp_dependency"
  | QUANTUM_VULNERABLE => "quantum_vulnerable"
  end.

(** [@dataclass class VulnerabilityPattern]; the [pattern] text is kept
    in its parsed form. *)
Module VulnerabilityPattern.
Record t : Type := Build {
  vuln_type : VulnerabilityType;
  pattern : Re.regex;
  severity : Z;
  description : string;
  recommendation : string;
  confidence_threshold : Q
}.
End VulnerabilityPattern.

(** An entry of [_initialize_quantum_patterns]. *)
Module QuantumPattern.
Record t : Type := Build {
  name : string;
  indicators : list string;
  quantum_safe : bool;
  severity : Z;
  recommendation : string
}.
End QuantumPattern.

(** An entry of [_load_historical_data]. *)
Module Exploit.
Record t : Type := Build {
  exploit_type : string;
  loss_amount : Z;
  date : string;
  pattern_signature : string
}.
End Exploit.

(** A finding: the dictionary with keys "type", "severity", "description",
    "location", "confidence" and "recommendation".  [None] is an absent
    key. *)
Module Vuln.
Record t : Type := Build {
  type : option string;
  severity : option Z;
  description : option string;
  location : option string;
  confidence : option Q;
  recommendation : option string
}.
End Vuln.

(** [d.get(key, default)] *)
Definition get {A : Type} (field : option A) (default : A) : A :=
  match field with
  | Some x => x
  | None => default
  end.

(** [@dataclass class DetectionResult] *)
Module DetectionResult.
Record t : Type := Build {
  program_address : string;
  vulnerabilities : list Vuln.t;
  security_score : Z;
  risk_level : string;
  recommendations : list string;
  quantum_resistant : bool;
  timestamp : Z
}.
End DetectionResult.

(* ================================================================== *)
(** ** [class AIVulnerabilityDetector] *)
(* ================================================================== *)

Module AIVulnerabilityDetector.

Import Re.

Local Open Scope Z_scope.

Definition LF : string := String (ascii_of_nat 10) EmptyString.

Definition any_chars : regex := Star Dot.

Fixpoint seq (rs : list regex) : regex :=
  match rs with
  | [] => Eps
  | [r] => r
  | r :: rest => Seq r (seq rest)
  end.

(** [(?!.*require!.*Signer).*Transfer.*] *)
Definition missing_signer_re : regex :=
  seq [NotAhead (seq [any_chars; text "require!"; any_chars; text "Signer"]);
       any_chars; text "Transfer"; any_chars].

(** [\.checked_(add|sub|mul|div)\(] *)
Definition integer_overflow_re : regex :=
  seq [text ".checked_";
       Alt (text "add") (Alt (text "sub") (Alt (text "mul") (text "div")));
       text "("].

(** [Account<'info,\s*\w+>.*(?!init)] *)
Definition uninitialized_account_re : regex :=
  seq [text "Account<'info,"; Star WhiteSpace; Plus WordChar; text ">";
       any_chars; NotAhead (text "init")].

(** [(invoke|invoke_signed).*\n.*state\s*=] *)
Definition reentrancy_re : regex :=
  seq [Alt (text "invoke") (text "invoke_signed"); any_chars; text LF;
       any_chars; text "state"; Star WhiteSpace; text "="].

(** [(ed25519|secp256k1|ECDSA)(?!.*quantum)] *)
Definition quantum_vulnerable_re : regex :=
  seq [Alt (text "ed25519") (Alt (text "secp256k1") (text "ECDSA"));
       NotAhead (seq [any_chars; text "quantum"])].

Definition _initialize_patterns : list VulnerabilityPattern.t :=
  [ VulnerabilityPattern.Build
      MISSING_SIGNER_CHECK
      missing_signer_re
      9
      "Missing signer verification before token transfer"
      "Add require!(ctx.accounts.authority.is_signer) before transfers"
      (F64.lit 85 100);
    VulnerabilityPattern.Build
      INTEGER_OVERFLOW
      integer_overflow_re
      8
      "Arithmetic operation without overflow protection"
      "Use checked_add/sub/mul/div instead of direct arithmetic"
      (F64.lit 90 100);
    VulnerabilityPattern.Build
      UNINITIALIZED_ACCOUNT
      uninitialized_account_re
      7
      "Account used without initialization check"
      "Add #[account(init)] or verify account is initialized"
      (F64.lit 80 100);
    VulnerabilityPattern.Build
      REENTRANCY
      reentrancy_re
      10
      "State change after external call (reentrancy risk)"
      "Update state before making external calls (checks-effects-interactions)"
      (F64.lit 95 100);
    VulnerabilityPattern.Build
      QUANTUM_VULNERABLE
      quantum_vulnerable_re
      6
      "Uses classical cryptography vulnerable to quantum attacks"
      "Implement post-quantum cryptographic signatures (Dilithium, SPHINCS+)"
      (F64.lit 75 100) ].

Definition _initialize_quantum_patterns : list QuantumPattern.t :=
  [ QuantumPattern.Build
      "Classical Signature Scheme"
      ["ed25519"; "secp256k1"; "ECDSA"; "RSA"]
      false
      6
      "Migrate to CRYSTALS-Dilithium or SPHINCS+";
    QuantumPattern.Build
      "Symmetric Encryption"
      ["AES-128"; "AES-192"]
      false
      5
      "Use AES-256 minimum (provides 128-bit quantum security)";
    QuantumPattern.Build
      "Hash Functions"
      ["SHA-256"; "SHA3-256"]
      true
      0
      "SHA-256/SHA3 are quantum-resistant" ].

Definition _load_historical_data : list Exploit.t :=
  [ Exploit.Build "reentrancy" 40000000 "2026-01-30"
      "external_call_before_state_update";
    Exploit.Build "unauthorized_access" 3100000000 "2025-12-15"
      "missing_authority_check" ].

(** The three attributes set by [__init__]. *)
Definition patterns : list VulnerabilityPattern.t := _initialize_patterns.
Definition historical_exploits : list Exploit.t := _load_historical_data.
Definition quantum_patterns : list QuantumPattern.t := _initialize_quantum_patterns.

(** [match] is the span [(match.start(), match.end())]. *)
Definition _calculate_confidence (code : string) (span : nat * nat)
  (pattern : VulnerabilityPattern.t) : Q :=
  let base_confidence := F64.lit 7 10 in
  let context_start := Z.max 0 (Z.of_nat (fst span) - 100) in
  let context_end := Z.min (Z.of_nat (String.length code)) (Z.of_nat (snd span) + 100) in
  let context := Py.slice (Z.to_nat context_start) (Z.to_nat context_end) code in
  let base_confidence :=
    if Py.contains context "unsafe"
    then F64.add base_confidence (F64.lit 1 10) else base_confidence in
  let base_confidence :=
    if Py.contains context "unwrap()"
    then F64.add base_confidence (F64.lit 5 100) else base_confidence in
  let base_confidence :=
    if negb (Py.contains context "require!")
    then F64.add base_confidence (F64.lit 1 10) else base_confidence in
  F64.min base_confidence (F64.lit 1 1).

Definition line_of (code : string) (start : nat) : string :=
  "Line " ++ Py.str_int (Z.of_nat (Py.count (Py.take start code) LF) + 1).

Definition _detect_pattern (code : string) (pattern : VulnerabilityPattern.t)
  : list Vuln.t :=
  flat_map
    (fun span =>
       let confidence := _calculate_confidence code span pattern in
       if F64.leb (VulnerabilityPattern.confidence_threshold pattern) confidence
       then [ Vuln.Build
                (Some (value (VulnerabilityPattern.vuln_type pattern)))
                (Some (VulnerabilityPattern.severity pattern))
                (Some (VulnerabilityPattern.description pattern))
                (Some (line_of code (fst span)))
                (Some confidence)
                (Some (VulnerabilityPattern.recommendation pattern)) ]
       else [])
    (finditer (VulnerabilityPattern.pattern pattern) code).

(** [np.max] of a non-empty array *)
Definition np_max (xs : list Q) : Q :=
  match xs with
  | [] => 0%Q
  | x :: rest => fold_left F64.max rest x
  end.

Definition _extract_features (code : string) : list Q :=
  let features :=
    [ Z.of_nat (String.length code);
      Z.of_nat (Py.count code LF);
      Z.of_nat (Py.count code "fn ");
      Z.of_nat (Py.count code "require!");
      Z.of_nat (Py.count code "invoke");
      Z.of_nat (Py.count code "Transfer");
      Z.of_nat (Py.count code "mut ");
      Z.of_nat (Py.count code "unsafe") ] in
  let features_array := map F64.of_int features in
  let denominator := F64.add (np_max features_array) (F64.lit 1 10000000000) in
  map (fun x => F64.div x denominator) features_array.

(** [features[3]] and [features[7]] raise [IndexError] on a shorter array:
    the result is [None]. *)
Definition _compute_anomaly_score (features : list Q) : option Q :=
  let expected_checks_ratio := F64.lit 1 10 in
  let expected_unsafe_ratio := F64.lit 1 100 in
  match nth_error features 3, nth_error features 7 with
  | Some f3, Some f7 =>
      let checks_deviation := F64.abs (F64.sub f3 expected_checks_ratio) in
      let unsafe_deviation := F64.abs (F64.sub f7 expected_unsafe_ratio) in
      let anomaly_score :=
        F64.div (F64.add checks_deviation (F64.mul unsafe_deviation (F64.of_int 5)))
                (F64.of_int 2) in
      Some (F64.min anomaly_score (F64.lit 1 1))
  | _, _ => None
  end.

(** The body of [_ml_anomaly_detection] once the score is known. *)
Definition anomaly_findings (anomaly_score : Q) : list Vuln.t :=
  if F64.ltb (F64.lit 7 10) anomaly_score
  then [ Vuln.Build
           (Some "anomaly_detected")
           (Some (F64.trunc (F64.mul anomaly_score (F64.of_int 10))))
           (Some ("Unusual code patterns detected (anomaly score: "
                  ++ F64.format_2f anomaly_score ++ ")")%string)
           (Some "Multiple locations")
           (Some anomaly_score)
           (Some "Manual review recommended for unusual patterns") ]
  else [].

Definition _ml_anomaly_detection (code : string) : option (list Vuln.t) :=
  let features := _extract_features code in
  match _compute_anomaly_score features with
  | Some anomaly_score => Some (anomaly_findings anomaly_score)
  | None => None
  end.

Definition _assess_quantum_resistance (code : string) : list Vuln.t :=
  flat_map
    (fun pattern =>
       flat_map
         (fun indicator =>
            if Py.contains (Py.lower code) (Py.lower indicator)
            then if negb (QuantumPattern.quantum_safe pattern)
                 then [ Vuln.Build
                          (Some (value QUANTUM_VULNERABLE))
                          (Some (QuantumPattern.severity pattern))
                          (Some ("Uses " ++ QuantumPattern.name pattern
                                 ++ " which is vulnerable to quantum attacks")%string)
                          (Some "Cryptographic implementation")
                          (Some (F64.lit 95 100))
                          (Some (QuantumPattern.recommendation pattern)) ]
                 else []
            else [])
         (QuantumPattern.indicators pattern))
    quantum_patterns.

(** [f"{n:,}"] for a natural number *)
Fixpoint format_commas_aux (fuel : nat) (n : Z) : string :=
  match fuel with
  | O => Py.str_int n
  | S f =>
      if n <? 1000 then Py.str_int n
      else (format_commas_aux f (n / 1000) ++ ","
            ++ String (Py.digit ((n mod 1000) / 100))
                 (F64.two_digits ((n mod 1000) mod 100)))%string
  end.

Definition format_commas (n : Z) : string :=
  format_commas_aux (Z.to_nat (Z.log2 n)) n.

Definition _match_historical_exploits (code : string) : list Vuln.t :=
  flat_map
    (fun exploit =>
       if Py.contains (Py.replace (Py.replace (Py.lower code) "_" EmptyString) " " EmptyString)
                      (Exploit.pattern_signature exploit)
       then [ Vuln.Build
                (Some (Exploit.exploit_type exploit))
                (Some 10)
                (Some ("Code matches pattern from $"
                       ++ format_commas (Exploit.loss_amount exploit)
                       ++ " exploit on " ++ Exploit.date exploit)%string)
                (Some "Pattern match")
                (Some (F64.lit 88 100))
                (Some "This pattern caused major losses. Review immediately.") ]
       else [])
    historical_exploits.

Definition _calculate_security_score (vulnerabilities : list Vuln.t) : Z :=
  match vulnerabilities with
  | [] => 100
  | _ =>
      let score :=
        fold_left
          (fun score vuln =>
             let severity := get (Vuln.severity vuln) 5 in
             let confidence := get (Vuln.confidence vuln) (F64.lit 5 10) in
             let deduction := F64.mul (F64.of_int severity) confidence in
             F64.sub score deduction)
          vulnerabilities (F64.of_int 100) in
      Z.max 0 (F64.trunc score)
  end.

Definition _determine_risk_level (security_score : Z)
  (vulnerabilities : list Vuln.t) : string :=
  let critical_vulns :=
    fold_left Z.add
      (map (fun _ => 1)
           (filter (fun v => 9 <=? get (Vuln.severity v) 0) vulnerabilities))
      0 in
  if (0 <? critical_vulns) || (security_score <? 30) then "CRITICAL"
  else if security_score <? 50 then "HIGH"
  else if security_score <? 70 then "MEDIUM"
  else if security_score <? 85 then "LOW"
  else "MINIMAL".

(** The two local lists of [_is_quantum_resistant]. *)
Definition quantum_safe_indicators : list string :=
  ["dilithium"; "sphincs"; "kyber"; "ntru";
   "quantum_resistant"; "post_quantum";
   "sha3"; "sha256"].

Definition quantum_vulnerable_indicators : list string :=
  ["ed25519"; "secp256k1"; "ecdsa"; "rsa"].

Definition _is_quantum_resistant (code : string) : bool :=
  let code_lower := Py.lower code in
  let has_safe :=
    existsb (fun indicator => Py.contains code_lower indicator)
            quantum_safe_indicators in
  let has_vulnerable :=
    existsb (fun indicator => Py.contains code_lower indicator)
            quantum_vulnerable_indicators in
  has_safe || negb has_vulnerable.

(** [sorted(xs, key=lambda x: x.get('severity', 0), reverse=True)]: the
    stable sort, largest key first; elements of equal key keep their
    order. *)
Definition sort_key (v : Vuln.t) : Z := get (Vuln.severity v) 0.

Fixpoint insert_desc (x : Vuln.t) (sorted : list Vuln.t) : list Vuln.t :=
  match sorted with
  | [] => [x]
  | y :: rest =>
      if sort_key x <? sort_key y then y :: insert_desc x rest
      else x :: sorted
  end.

Definition sorted_desc (xs : list Vuln.t) : list Vuln.t :=
  fold_right insert_desc [] xs.

(** [rec in seen] *)
Definition mem (rec : string) (seen : list string) : bool :=
  existsb (String.eqb rec) seen.

(** One turn of the loop over the five most severe findings; the state is
    [(recommendations, seen)]. *)
Definition add_unique (state : list string * list string) (vuln : Vuln.t)
  : list string * list string :=
  let '(recommendations, seen) := state in
  let rec := get (Vuln.recommendation vuln) EmptyString in
  if negb (String.eqb rec EmptyString) && negb (mem rec seen)
  then (recommendations
          ++ [("[" ++ Py.upper (get (Vuln.type vuln) "unknown") ++ "] " ++ rec)%string],
        rec :: seen)
  else state.

Definition _generate_recommendations (vulnerabilities : list Vuln.t)
  : list string :=
  let sorted_vulns := sorted_desc vulnerabilities in
  let '(recommendations, _) :=
    fold_left add_unique (firstn 5 sorted_vulns) ([], []) in
  let recommendations :=
    if (5 <? Z.of_nat (List.length vulnerabilities))
    then recommendations
           ++ [("Address " ++ Py.str_int (Z.of_nat (List.length vulnerabilities) - 5)
                ++ " additional findings in full report")%string]
    else recommendations in
  let recommendations :=
    recommendations
      ++ ["Consider professional audit from Oak Security, Zellic, or Quantstamp"] in
  let recommendations :=
    recommendations
      ++ ["Implement quantum-resistant cryptography for future-proofing"] in
  recommendations.

(** [now] is the value of [_get_timestamp()]. *)
Definition analyze_program (now : Z) (program_code program_address : string)
  : option DetectionResult.t :=
  let vulnerabilities :=
    flat_map (fun pattern => _detect_pattern program_code pattern) patterns in
  match _ml_anomaly_detection program_code with
  | None => None
  | Some ml_findings =>
      let vulnerabilities := vulnerabilities ++ ml_findings in
      let quantum_vulns := _assess_quantum_resistance program_code in
      let vulnerabilities := vulnerabilities ++ quantum_vulns in
      let historical_matches := _match_historical_exploits program_code in
      let vulnerabilities := vulnerabilities ++ historical_matches in
      let security_score := _calculate_security_score vulnerabilities in
      let risk_level := _determine_risk_level security_score vulnerabilities in
      let quantum_resistant := _is_quantum_resistant program_code in
      let recommendations := _generate_recommendations vulnerabilities in
      Some (DetectionResult.Build
              program_address vulnerabilities security_score risk_level
              recommendations quantum_resistant now)
  end.

End AIVulnerabilityDetector.

(* ================================================================== *)
(** ** The behaviour the specification describes *)
(* ================================================================== *)

Module Spec.

Import AIVulnerabilityDetector.

Local Open Scope Z_scope.

(** The invariant of a finding in the data model: severity within 1..10
    and confidence within 0..1 (an absent key counts with the default the
    score computation gives it). *)
Definition in_range (v : Vuln.t) : Prop :=
  (1 <= get (Vuln.severity v) 5 <= 10) /\
  (0 <= get (Vuln.confidence v) (F64.lit 5 10) <= 1)%Q.

(** "Start at 100; for each finding subtract severity x confidence." *)
Definition after_deductions (vs : list Vuln.t) : Q :=
  fold_left
    (fun score v =>
       F64.sub score
         (F64.mul (F64.of_int (get (Vuln.severity v) 5))
                  (get (Vuln.confidence v) (F64.lit 5 10))))
    vs (F64.of_int 100).

Definition clamp (lo hi x : Z) : Z := Z.max lo (Z.min hi x).

(** "Clamp final result to [0,100], truncated to integer." *)
Definition security_score (vs : list Vuln.t) : Z :=
  clamp 0 100 (F64.trunc (after_deductions vs)).

(** "Any finding has severity >= 9." *)
Definition critical (v : Vuln.t) : Prop := 9 <= get (Vuln.severity v) 0.



(** The category of a finding is a kind of the data model; the names of the
    kinds are made of ASCII letters, digits, the underscore and the
    hyphen. *)
Definition kind_char (c : ascii) : bool :=
  let n := nat_of_ascii c in
  ((97 <=? n) && (n <=? 122) || (65 <=? n) && (n <=? 90)
   || (48 <=? n) && (n <=? 57) || (n =? 95) || (n =? 45))%nat.

Fixpoint kind_name (s : string) : bool :=
  match s with
  | EmptyString => true
  | String c t => kind_char c && kind_name t
  end.

Definition categorised (v : Vuln.t) : Prop :=
  exists category, Vuln.type v = Some category /\ kind_name category = true.

Definition category (v : Vuln.t) : string :=
  match Vuln.type v with
  | Some kind => kind
  | None => EmptyString
  end.

(** "Uppercased": every small letter of the alphabet gives way to its
    capital. *)
Definition small_letters : string := "abcdefghijklmnopqrstuvwxyz".
Definition capital_letters : string := "ABCDEFGHIJKLMNOPQRSTUVWXYZ".

Fixpoint translate (from to : string) (c : ascii) : ascii :=
  match from, to with
  | String a from', String b to' =>
      if Ascii.eqb c a then b else translate from' to' c
  | _, _ => c
  end.

Fixpoint uppercased (s : string) : string :=
  match s with
  | EmptyString => EmptyString
  | String c t => String (translate small_letters capital_letters c) (uppercased t)
  end.

(** The recommendation text of a finding and its upper-cased category tag. *)
Definition rec_text (v : Vuln.t) : string :=
  match Vuln.recommendation v with
  | Some text => text
  | None => EmptyString
  end.

Definition tag (v : Vuln.t) : string := uppercased (category v).

Definition tagged (v : Vuln.t) : string :=
  ("[" ++ tag v ++ "] " ++ rec_text v)%string.

(** "Has already been added". *)
Definition added_before (text : string) (seen : list string) : bool :=
  if in_dec string_dec text seen then true else false.

(** The findings that bring a recommendation text not added before: not in
    [seen], and not brought by a finding earlier in the list.  A finding
    without a recommendation text brings none. *)
Fixpoint first_mentions (seen : list string) (vs : list Vuln.t) : list Vuln.t :=
  match vs with
  | [] => []
  | v :: rest =>
      if String.eqb (rec_text v) EmptyString || added_before (rec_text v) seen
      then first_mentions seen rest
      else v :: first_mentions (rec_text v :: seen) rest
  end.

(** The synthetic line on the findings left out of the top five. *)
Definition omitted_line (total : nat) : list string :=
  if 5 <? Z.of_nat total
  then [("Address " ++ Py.str_int (Z.of_nat total - 5)
         ++ " additional findings in full report")%string]
  else [].

(** The two fixed closing recommendations. *)
Definition closing : list string :=
  ["Consider professional audit from Oak Security, Zellic, or Quantstamp";
   "Implement quantum-resistant cryptography for future-proofing"].

Definition recommendations (vs : list Vuln.t) : list string :=
  map tagged (first_mentions [] (firstn 5 (sorted_desc vs)))
  ++ omitted_line (List.length vs) ++ closing.

(** The anomaly score of a feature vector whose elements 3 and 7 are the
    ratios of checks and of unsafe blocks. *)
Definition anomaly_score (features : list Q) : Q :=
  let checks_deviation :=
    F64.abs (F64.sub (nth 3 features 0%Q) (F64.lit 1 10)) in
  let unsafe_deviation :=
    F64.abs (F64.sub (nth 7 features 0%Q) (F64.lit 1 100)) in
  F64.min
    (F64.div (F64.add checks_deviation (F64.mul unsafe_deviation (F64.of_int 5)))
             (F64.of_int 2))
    (F64.lit 1 1).










(** The first character of a line of the recommendation list. *)
Definition first_char (s : string) : option ascii :=
  match s with
  | EmptyString => None
  | String c _ => Some c
  end.

(** The values of ["type"] the detection sources can write. *)
Definition reported_types : list string :=
  [ value MISSING_SIGNER_CHECK; value INTEGER_OVERFLOW;
    value UNINITIALIZED_ACCOUNT; value REENTRANCY; value QUANTUM_VULNERABLE;
    "anomaly_detected" ].

Definition reported (v : Vuln.t) : Prop :=
  exists t, Vuln.type v = Some t /\ In t reported_types.

(** The source holds the indicator, letter case apart. *)
Definition mentions (code indicator : string) : Prop :=
  Py.contains (Py.lower code) indicator = true.

(** The description of the findings the quantum assessor derives from the
    table entry of the classical signature schemes. *)
Definition classical_signature_note : string :=
  "Uses Classical Signature Scheme which is vulnerable to quantum attacks".

End Spec.

(* ================================================================== *)
(** ** The snippets of [tests/test_ai_detector.py] *)
(* ================================================================== *)

Module Snippets.

Import AIVulnerabilityDetector.

Definition DQ : string := String (ascii_of_nat 34) EmptyString.

Definition lines (ls : list string) : string := String.concat LF ls.

(** [test_detects_missing_signer_check] *)
Definition missing_signer_check : string :=
  lines
    [ EmptyString;
      "        pub fn withdraw(ctx: Context<Withdraw>, amount: u64) -> Result<()> {";
      "            let vault = &mut ctx.accounts.vault;";
      "            // No signer check before transfer";
      "            transfer(vault, amount)?;";
      "            Ok(())";
      "        }";
      "        " ].

(** [test_detects_reentrancy_pattern] *)
Definition reentrancy_pattern : string :=
  lines
    [ EmptyString;
      "        invoke(&transfer_ix, &[vault.to_account_info()])?;";
      "        vault.balance -= amount;";
      "        " ].

(** [test_detects_hardcoded_keys] *)
Definition hardcoded_keys : string :=
  lines
    [ EmptyString;
      ("        let admin = Pubkey::from_str(" ++ DQ
        ++ "HN7cABqLq46Es1jh92dQQisAq662SmxELLLsHHe4YWrH" ++ DQ ++ ").unwrap();")%string;
      "        " ].

(** An external call followed on the next line by an assignment to
    [state], the very shape the reentrancy pattern is written for. *)
Definition call_then_state_update : string :=
  lines
    [ "invoke(&ix, accounts)?;";
      "state = new_state;" ].

End Snippets.

(* ================================================================== *)
(** ** Sample findings *)
(* ================================================================== *)

Module Samples.

Import AIVulnerabilityDetector.

Local Open Scope Z_scope.

Definition finding (type : string) (severity : Z) (confidence : Q)
  (recommendation : string) : Vuln.t :=
  Vuln.Build (Some type) (Some severity) None None (Some confidence)
             (Some recommendation).

(** A single finding of the missing-signer pattern: severity 9 at the
    confidence 0.85 of its threshold. *)
Definition one_critical_finding : list Vuln.t :=
  [ finding "missing_signer_check" 9 (F64.lit 85 100)
      "Add require!(ctx.accounts.authority.is_signer) before transfers" ].

(** Seven findings, two recommendation texts of which come twice. *)
Definition seven_findings : list Vuln.t :=
  [ finding "quantum_vulnerable" 6 (F64.lit 95 100)
      "Migrate to CRYSTALS-Dilithium or SPHINCS+";
    finding "missing_signer_check" 9 (F64.lit 85 100)
      "Add require!(ctx.accounts.authority.is_signer) before transfers";
    finding "reentrancy" 10 (F64.lit 95 100)
      "Update state before making external calls (checks-effects-interactions)";
    finding "missing_signer_check" 9 (F64.lit 85 100)
      "Add require!(ctx.accounts.authority.is_signer) before transfers";
    finding "quantum_vulnerable" 5 (F64.lit 95 100)
      "Use AES-256 minimum (provides 128-bit quantum security)";
    finding "quantum_vulnerable" 6 (F64.lit 95 100)
      "Migrate to CRYSTALS-Dilithium or SPHINCS+";
    finding "uninitialized_account" 7 (F64.lit 85 100)
      "Add #[account(init)] or verify account is initialized" ].

End Samples.


(* ================================================================== *)
(** ** Notions used by the further properties *)
(* ================================================================== *)

Module Props.

Import AIVulnerabilityDetector.

Local Open Scope Z_scope.

(** The text [_calculate_confidence] looks at: 100 characters on either
    side of the match. *)
Definition window (code : string) (span : nat * nat) : string :=
  Py.slice
    (Z.to_nat (Z.max 0 (Z.of_nat (fst span) - 100)))
    (Z.to_nat (Z.min (Z.of_nat (String.length code)) (Z.of_nat (snd span) + 100)))
    code.

(** How many of the three context signals a match of each pattern needs to
    be reported: the word [unsafe], the text [unwrap()], no [require!]. *)
Definition signals_needed (t : VulnerabilityType) : nat :=
  match t with
  | MISSING_SIGNER_CHECK => 2
  | INTEGER_OVERFLOW => 3
  | UNINITIALIZED_ACCOUNT => 2
  | REENTRANCY => 3
  | QUANTUM_VULNERABLE => 1
  | _ => 0
  end.

Definition signals (code : string) (span : nat * nat) : nat :=
  (if Py.contains (window code span) "unsafe" then 1 else 0)
  + (if Py.contains (window code span) "unwrap()" then 1 else 0)
  + (if Py.contains (window code span) "require!" then 0 else 1).

(** The findings of a result, none when the analysis raised an error. *)
Definition findings_of (result : option DetectionResult.t) : list Vuln.t :=
  match result with
  | Some r => DetectionResult.vulnerabilities r
  | None => []
  end.

(** The findings of an analysis, as a list: those of the patterns in
    catalogue order, of the anomaly detector, of the quantum assessor. *)
Definition all_findings (code : string) : list Vuln.t :=
  flat_map (fun pattern => _detect_pattern code pattern) patterns
  ++ anomaly_findings (Spec.anomaly_score (_extract_features code))
  ++ _assess_quantum_resistance code.

(** The texts, in lower case, one of which a source must hold for a
    pattern of the given type to match. *)
Definition keywords (t : VulnerabilityType) : list string :=
  match t with
  | MISSING_SIGNER_CHECK => ["transfer"]
  | INTEGER_OVERFLOW => [".checked_"]
  | UNINITIALIZED_ACCOUNT => ["account<'info,"]
  | REENTRANCY => ["invoke"]
  | QUANTUM_VULNERABLE => ["ed25519"; "secp256k1"; "ecdsa"]
  | _ => []
  end.

(** Every keyword of the catalogue and every indicator of the quantum
    assessor, in lower case. *)
Definition trigger_words : list string :=
  ["transfer"; ".checked_"; "account<'info,"; "invoke";
   "ed25519"; "secp256k1"; "ecdsa"; "rsa"; "aes-128"; "aes-192"].

(** One subtraction of the score computation. *)
Definition deduct (score : Q) (v : Vuln.t) : Q :=
  F64.sub score
    (F64.mul (F64.of_int (get (Vuln.severity v) 5))
             (get (Vuln.confidence v) (F64.lit 5 10))).

(** The catalogue entry of index [i]. *)
Definition entry (i : nat) : VulnerabilityPattern.t :=
  nth i patterns
      (VulnerabilityPattern.Build LOGIC_ERROR Re.Eps 0 EmptyString EmptyString 0).

(** The five risk levels, mildest first. *)
Definition level_rank (level : string) : nat :=
  if String.eqb level "MINIMAL" then 0
  else if String.eqb level "LOW" then 1
  else if String.eqb level "MEDIUM" then 2
  else if String.eqb level "HIGH" then 3
  else 4.

(** All six keys of a finding are present. *)
Definition complete (v : Vuln.t) : Prop :=
  Vuln.type v <> None /\ Vuln.severity v <> None /\
  Vuln.description v <> None /\ Vuln.location v <> None /\
  Vuln.confidence v <> None /\ Vuln.recommendation v <> None.

(** The indicators the quantum assessor reports, in lower case. *)
Definition assessed_indicators : list string :=
  ["ed25519"; "secp256k1"; "ecdsa"; "rsa"; "aes-128"; "aes-192"].

(** A call followed by a state update, in a window showing all three
    context signals. *)
Definition risky_call : string :=
  Snippets.lines ["unsafe { x.unwrap(); invoke(a);"; "state = 1 }"].

End Props.


(* ================================================================== *)
(** ** Facts about binary64 rounding *)
(* ================================================================== *)

Module F64Facts.

Import F64.

Local Open Scope Q_scope.

Lemma pow2_pos (e : Z) : 0 < pow2 e.
Proof. apply Qpower_0_lt. reflexivity. Qed.

Lemma pow2_add (a b : Z) : pow2 (a + b) == pow2 a * pow2 b.
Proof. apply Qpower_plus. discriminate. Qed.

Lemma pow2_le (a b : Z) : (a <= b)%Z -> pow2 a <= pow2 b.
Proof. intros H. apply Qpower_le_compat_l; [exact H | discriminate]. Qed.

Lemma pow2_lt_inv (a b : Z) : pow2 a < pow2 b -> (a < b)%Z.
Proof. intros H. apply (Qpower_lt_compat_l_inv 2); [exact H | reflexivity]. Qed.

Lemma pow2_Z (k : Z) : (0 <= k)%Z -> inject_Z (2 ^ k) == pow2 k.
Proof. intros H. apply Zpower_Qpower. exact H. Qed.

Lemma log2_Q_bounds (n : Z) :
  (0 < n)%Z ->
  pow2 (Z.log2 n) <= inject_Z n /\ inject_Z n < pow2 (Z.log2 n + 1).
Proof.
  intros Hn.
  destruct (Z.log2_spec n Hn) as [Hlo Hhi].
  pose proof (Z.log2_nonneg n) as Hnn.
  split.
  - rewrite <- pow2_Z by exact Hnn. rewrite <- Zle_Qle. exact Hlo.
  - rewrite <- pow2_Z by lia. rewrite <- Zlt_Qlt.
    replace (Z.log2 n + 1)%Z with (Z.succ (Z.log2 n)) by lia. exact Hhi.
Qed.

Lemma ilog2_spec (q : Q) :
  0 < q -> pow2 (ilog2 q) <= q /\ q < pow2 (ilog2 q + 1).
Proof.
  intros Hq. destruct q as [n d].
  assert (Hn : (0 < n)%Z).
  { unfold Qlt in Hq. simpl in Hq. lia. }
  destruct (log2_Q_bounds n Hn) as [Hnlo Hnhi].
  destruct (log2_Q_bounds (Zpos d) (Pos2Z.is_pos d)) as [Hdlo Hdhi].
  assert (Hd : 0 < inject_Z (Zpos d)) by reflexivity.
  assert (Hupper : n # d < pow2 (Z.log2 n - Z.log2 (Zpos d) + 1)).
  { rewrite (Qmake_Qdiv n d). apply Qlt_shift_div_r; [exact Hd|].
    eapply Qlt_le_trans; [exact Hnhi|].
    replace (Z.log2 n + 1)%Z
      with ((Z.log2 n - Z.log2 (Zpos d) + 1) + Z.log2 (Zpos d))%Z by lia.
    rewrite pow2_add. apply Qmult_le_l; [apply pow2_pos | exact Hdlo]. }
  assert (Hlower : pow2 (Z.log2 n - Z.log2 (Zpos d) - 1) <= n # d).
  { rewrite (Qmake_Qdiv n d). apply Qle_shift_div_l; [exact Hd|].
    eapply Qle_trans; [|exact Hnlo].
    replace (Z.log2 n)
      with ((Z.log2 n - Z.log2 (Zpos d) - 1) + (Z.log2 (Zpos d) + 1))%Z at 2 by lia.
    rewrite pow2_add. apply Qmult_le_l; [apply pow2_pos|].
    apply Qlt_le_weak. exact Hdhi. }
  unfold ilog2. cbn [Qnum Qden].
  destruct (Qle_bool (pow2 (Z.log2 n - Z.log2 (Zpos d))) (n # d)) eqn:E.
  - split; [apply Qle_bool_iff; exact E | exact Hupper].
  - split; [exact Hlower|].
    replace (Z.log2 n - Z.log2 (Zpos d) - 1 + 1)%Z
      with (Z.log2 n - Z.log2 (Zpos d))%Z by lia.
    apply Qnot_le_lt. intros H. apply Qle_bool_iff in H. congruence.
Qed.

Lemma ilog2_mono (x y : Q) : 0 < x -> x <= y -> (ilog2 x <= ilog2 y)%Z.
Proof.
  intros Hx Hxy.
  assert (Hy : 0 < y) by (eapply Qlt_le_trans; eassumption).
  destruct (ilog2_spec x Hx) as [Hlo _].
  destruct (ilog2_spec y Hy) as [_ Hhi].
  assert (H : pow2 (ilog2 x) < pow2 (ilog2 y + 1)).
  { eapply Qle_lt_trans; [exact Hlo|]. eapply Qle_lt_trans; eassumption. }
  apply pow2_lt_inv in H. lia.
Qed.

Lemma rne_bounds (x : Q) : (Qfloor x <= rne x <= Qfloor x + 1)%Z.
Proof.
  unfold rne.
  destruct (x - inject_Z (Qfloor x) ?= 1 # 2); try destruct (Z.even (Qfloor x)); lia.
Qed.

Lemma rne_ge (k : Z) (x : Q) : inject_Z k <= x -> (k <= rne x)%Z.
Proof.
  intros H. apply Qfloor_resp_le in H. rewrite Qfloor_Z in H.
  pose proof (rne_bounds x). lia.
Qed.

Lemma rne_le (k : Z) (x : Q) : x <= inject_Z k -> (rne x <= k)%Z.
Proof.
  intros H.
  pose proof (Qfloor_resp_le _ _ H) as Hf. rewrite Qfloor_Z in Hf.
  pose proof (rne_bounds x) as Hb.
  destruct (Z.eq_dec (Qfloor x) k) as [E|NE]; [|lia].
  unfold rne.
  assert (Hx : x - inject_Z (Qfloor x) <= 0).
  { rewrite E. rewrite <- (Qplus_opp_r (inject_Z k)).
    apply Qplus_le_l. exact H. }
  destruct (Qcompare_spec (x - inject_Z (Qfloor x)) (1 # 2)) as [HE|HL|HG].
  - rewrite HE in Hx. unfold Qle in Hx. simpl in Hx. lia.
  - lia.
  - exfalso. apply (Qlt_irrefl (1 # 2)).
    eapply Qlt_le_trans; [exact HG|]. eapply Qle_trans; [exact Hx|]. discriminate.
Qed.

Ltac frac_contra :=
  match goal with
  | HE : ?a == 1 # 2, HL : ?b < 1 # 2, Hf : ?a <= ?b |- _ =>
      rewrite HE in Hf; exact (Qlt_irrefl _ (Qle_lt_trans _ _ _ Hf HL))
  | HG : 1 # 2 < ?a, HE : ?b == 1 # 2, Hf : ?a <= ?b |- _ =>
      rewrite HE in Hf; exact (Qlt_irrefl _ (Qlt_le_trans _ _ _ HG Hf))
  | HG : 1 # 2 < ?a, HL : ?b < 1 # 2, Hf : ?a <= ?b |- _ =>
      exact (Qlt_irrefl _ (Qlt_trans _ _ _ (Qlt_le_trans _ _ _ HG Hf) HL))
  end.

Lemma rne_mono (x y : Q) : x <= y -> (rne x <= rne y)%Z.
Proof.
  intros H.
  pose proof (Qfloor_resp_le _ _ H) as Hf.
  pose proof (rne_bounds x) as Hx. pose proof (rne_bounds y) as Hy.
  destruct (Z.eq_dec (Qfloor x) (Qfloor y)) as [E|NE]; [|lia].
  assert (Hfrac : x - inject_Z (Qfloor x) <= y - inject_Z (Qfloor y)).
  { rewrite E. apply Qplus_le_l. exact H. }
  unfold rne. rewrite <- E in *.
  destruct (Qcompare_spec (x - inject_Z (Qfloor x)) (1 # 2)) as [HE|HL|HG];
    destruct (Qcompare_spec (y - inject_Z (Qfloor x)) (1 # 2)) as [HE'|HL'|HG'];
    try destruct (Z.even (Qfloor x)); try lia; exfalso; frac_contra.
Qed.

Lemma scaled_le (a b : Q) (e : Z) : a <= b -> a / pow2 e <= b / pow2 e.
Proof.
  intros H. unfold Qdiv. apply Qmult_le_compat_r; [exact H|].
  apply Qlt_le_weak, Qinv_lt_0_compat, pow2_pos.
Qed.

Lemma rnd_pos_eq (q : Q) :
  rnd_pos q == inject_Z (rne (q / pow2 (ulp_exp q))) * pow2 (ulp_exp q).
Proof. unfold rnd_pos. apply Qred_correct. Qed.

Lemma ulp_exp_mono (x y : Q) : 0 < x -> x <= y -> (ulp_exp x <= ulp_exp y)%Z.
Proof.
  intros Hx Hxy. pose proof (ilog2_mono x y Hx Hxy). unfold ulp_exp. lia.
Qed.

(** Below the next power of two the significand stays within 53 bits. *)
Lemma rnd_pos_upper (q : Q) :
  0 < q -> rnd_pos q <= pow2 (ulp_exp q + 53).
Proof.
  intros Hq. rewrite rnd_pos_eq.
  destruct (ilog2_spec q Hq) as [_ Hhi].
  assert (He : (ilog2 q + 1 <= ulp_exp q + 53)%Z) by (unfold ulp_exp; lia).
  assert (Hs : q / pow2 (ulp_exp q) <= inject_Z (2 ^ 53)).
  { apply Qle_shift_div_r; [apply pow2_pos|].
    rewrite pow2_Z by lia. rewrite <- pow2_add.
    apply Qlt_le_weak. eapply Qlt_le_trans; [exact Hhi|].
    apply pow2_le. lia. }
  apply rne_le in Hs.
  replace (ulp_exp q + 53)%Z with (53 + ulp_exp q)%Z by lia.
  rewrite pow2_add. apply Qmult_le_compat_r; [|apply Qlt_le_weak, pow2_pos].
  rewrite <- (pow2_Z 53) by lia. rewrite <- Zle_Qle. exact Hs.
Qed.

(** In the normal range the significand has its leading bit set. *)
Lemma rnd_pos_lower (q : Q) :
  0 < q -> (-1074 < ulp_exp q)%Z -> pow2 (ulp_exp q + 52) <= rnd_pos q.
Proof.
  intros Hq Hn. rewrite rnd_pos_eq.
  destruct (ilog2_spec q Hq) as [Hlo _].
  assert (He : (ulp_exp q + 52 = ilog2 q)%Z) by (unfold ulp_exp in *; lia).
  assert (Hs : inject_Z (2 ^ 52) <= q / pow2 (ulp_exp q)).
  { apply Qle_shift_div_l; [apply pow2_pos|].
    rewrite pow2_Z by lia. rewrite <- pow2_add.
    replace (52 + ulp_exp q)%Z with (ilog2 q) by lia. exact Hlo. }
  apply rne_ge in Hs.
  replace (ulp_exp q + 52)%Z with (52 + ulp_exp q)%Z by lia.
  rewrite pow2_add. apply Qmult_le_compat_r; [|apply Qlt_le_weak, pow2_pos].
  rewrite <- (pow2_Z 52) by lia. rewrite <- Zle_Qle. exact Hs.
Qed.

Lemma rnd_pos_mono (x y : Q) : 0 < x -> x <= y -> rnd_pos x <= rnd_pos y.
Proof.
  intros Hx Hxy.
  assert (Hy : 0 < y) by (eapply Qlt_le_trans; eassumption).
  pose proof (ulp_exp_mono x y Hx Hxy) as He.
  destruct (Z.eq_dec (ulp_exp x) (ulp_exp y)) as [E|NE].
  - rewrite !rnd_pos_eq, E.
    apply Qmult_le_compat_r; [|apply Qlt_le_weak, pow2_pos].
    rewrite <- Zle_Qle. apply rne_mono, scaled_le, Hxy.
  - eapply Qle_trans; [apply rnd_pos_upper; exact Hx|].
    eapply Qle_trans; [|apply rnd_pos_lower; [exact Hy|]].
    + apply pow2_le. lia.
    + unfold ulp_exp in *. lia.
Qed.

Lemma rnd_pos_nonneg (q : Q) : 0 < q -> 0 <= rnd_pos q.
Proof.
  intros Hq. rewrite rnd_pos_eq.
  apply Qmult_le_0_compat; [|apply Qlt_le_weak, pow2_pos].
  change 0 with (inject_Z 0). rewrite <- Zle_Qle. apply rne_ge.
  apply Qle_shift_div_l; [apply pow2_pos|].
  rewrite Qmult_0_l. apply Qlt_le_weak, Hq.
Qed.

Lemma Qopp_pos (q : Q) : q < 0 -> 0 < - q.
Proof. intros H. apply Qopp_lt_compat in H. exact H. Qed.

(** Rounding preserves the order. *)
Lemma rnd_mono (x y : Q) : x <= y -> rnd x <= rnd y.
Proof.
  intros H. unfold rnd.
  destruct (Qcompare_spec x 0) as [Ex|Lx|Gx];
    destruct (Qcompare_spec y 0) as [Ey|Ly|Gy].
  - apply Qle_refl.
  - exfalso. rewrite Ex in H. exact (Qlt_irrefl _ (Qle_lt_trans _ _ _ H Ly)).
  - apply rnd_pos_nonneg, Gy.
  - apply (Qopp_le_compat 0), rnd_pos_nonneg, Qopp_pos, Lx.
  - apply Qopp_le_compat, rnd_pos_mono; [apply Qopp_pos, Ly|].
    apply Qopp_le_compat, H.
  - eapply Qle_trans; [apply (Qopp_le_compat 0), rnd_pos_nonneg, Qopp_pos, Lx|].
    apply rnd_pos_nonneg, Gy.
  - exfalso. rewrite Ey in H. exact (Qlt_irrefl _ (Qlt_le_trans _ _ _ Gx H)).
  - exfalso. exact (Qlt_irrefl _ (Qlt_trans _ _ _ (Qlt_le_trans _ _ _ Gx H) Ly)).
  - apply rnd_pos_mono; assumption.
Qed.

Lemma rnd_nonneg (x : Q) : 0 <= x -> 0 <= rnd x.
Proof. intros H. change 0 with (rnd 0) at 1. apply rnd_mono, H. Qed.

Lemma trunc_le (x : Q) (k : Z) : (0 <= k)%Z -> x <= inject_Z k -> (trunc x <= k)%Z.
Proof.
  intros Hk H. unfold trunc. destruct x as [n d]. cbn [Qnum Qden].
  unfold Qle in H. cbn in H.
  destruct (Z.le_gt_cases 0 n) as [Hn|Hn].
  - apply Z.quot_le_upper_bound; lia.
  - pose proof (Z.quot_opp_l n (Zpos d) ltac:(lia)) as Ho.
    pose proof (Z.quot_pos (- n) (Zpos d) ltac:(lia) ltac:(lia)). lia.
Qed.

End F64Facts.

(* ================================================================== *)
(** ** Facts about the string primitives *)
(* ================================================================== *)

Module PyFacts.

Import Py.

Lemma has_char_app (c : ascii) (a b : string) :
  has_char c (a ++ b) = has_char c a || has_char c b.
Proof.
  induction a as [|x a IH]; simpl.
  - reflexivity.
  - rewrite IH. apply orb_assoc.
Qed.

Lemma starts_with_has_char (c : ascii) (p s : string) :
  starts_with p s = true -> has_char c p = true -> has_char c s = true.
Proof.
  revert s. induction p as [|a p IH]; intros s Hp Hc; simpl in *.
  - discriminate.
  - destruct s as [|b s]; [discriminate|].
    apply andb_true_iff in Hp. destruct Hp as [Hab Hp].
    apply Ascii.eqb_eq in Hab. subst b. simpl.
    apply orb_true_iff in Hc. destruct Hc as [Hc|Hc].
    + rewrite Hc. reflexivity.
    + rewrite (IH s Hp Hc). apply orb_true_r.
Qed.

(** Every character of a substring occurs in the string. *)
Lemma contains_has_char (c : ascii) (s p : string) :
  contains s p = true -> has_char c p = true -> has_char c s = true.
Proof.
  induction s as [|a s IH]; intros Hs Hc; simpl in Hs.
  - rewrite orb_false_r in Hs. exact (starts_with_has_char c p _ Hs Hc).
  - apply orb_true_iff in Hs. destruct Hs as [Hs|Hs].
    + exact (starts_with_has_char c p _ Hs Hc).
    + simpl. rewrite (IH Hs Hc). apply orb_true_r.
Qed.

(** Deleting a pattern adds no character. *)
Lemma delete_has_char (c : ascii) (old : string) (skip : nat) (s : string) :
  has_char c (replace_from old EmptyString skip s) = true -> has_char c s = true.
Proof.
  revert skip. induction s as [|a s IH]; intros skip H; simpl in *.
  - exact H.
  - destruct skip as [|k].
    + destruct (starts_with old (String a s)).
      * simpl in H. rewrite (IH _ H). apply orb_true_r.
      * simpl in H. apply orb_true_iff in H. destruct H as [H|H].
        -- rewrite H. reflexivity.
        -- rewrite (IH _ H). apply orb_true_r.
    + rewrite (IH _ H). apply orb_true_r.
Qed.

(** Deleting a character leaves no occurrence of it. *)
Lemma delete_char_gone (c : ascii) (skip : nat) (s : string) :
  has_char c (replace_from (String c EmptyString) EmptyString skip s) = false.
Proof.
  revert skip. induction s as [|a s IH]; intros skip; simpl.
  - reflexivity.
  - destruct skip as [|k]; [|apply IH].
    destruct (Ascii.eqb c a) eqn:E; simpl.
    + apply IH.
    + rewrite Ascii.eqb_sym, E. apply IH.
Qed.

End PyFacts.

(* ================================================================== *)
(** ** The detector against its specification *)
(* ================================================================== *)

Import AIVulnerabilityDetector.

Local Open Scope Z_scope.

(** The source as the historical matcher compares it, without underscores
    and spaces, holds no underscore. *)
Lemma normalized_source_has_no_underscore (code : string) :
  Py.has_char "_" (Py.replace (Py.replace (Py.lower code) "_" EmptyString) " " EmptyString) = false.
Proof.
  destruct (Py.has_char "_" (Py.replace (Py.replace (Py.lower code) "_" EmptyString) " " EmptyString))
    eqn:E; [|reflexivity].
  apply PyFacts.delete_has_char in E.
  unfold Py.replace in E. rewrite PyFacts.delete_char_gone in E. discriminate E.
Qed.

Lemma match_historical_exploits_nil (code : string) :
  _match_historical_exploits code = [].
Proof.
  unfold _match_historical_exploits, historical_exploits, _load_historical_data.
  cbn [flat_map Exploit.pattern_signature].
  destruct (Py.contains _ "external_call_before_state_update") eqn:E1.
  - pose proof (PyFacts.contains_has_char "_" _ _ E1 eq_refl) as H.
    rewrite normalized_source_has_no_underscore in H. discriminate H.
  - destruct (Py.contains _ "missing_authority_check") eqn:E2; [|reflexivity].
    pose proof (PyFacts.contains_has_char "_" _ _ E2 eq_refl) as H.
    rewrite normalized_source_has_no_underscore in H. discriminate H.
Qed.

(** C10: the historical-exploit matcher returns the empty sequence for
    every source: each signature of the registry holds an underscore, and
    the source is searched after all its underscores and spaces have been
    deleted. *)
Theorem historical_matcher_returns_nothing :
  Forall (fun e => Py.has_char "_" (Exploit.pattern_signature e) = true)
         historical_exploits /\
  (forall code : string,
      Py.has_char "_" (Py.replace (Py.replace (Py.lower code) "_" EmptyString)
                                  " " EmptyString) = false) /\
  (forall code : string, _match_historical_exploits code = []).
Proof.
  split; [repeat constructor|].
  split; [exact normalized_source_has_no_underscore | exact match_historical_exploits_nil].
Qed.

(** C6: analysing the empty source raises no error and reports no finding,
    the score 100 and the risk level MINIMAL. *)
Theorem empty_source_is_clean :
  forall (now : Z) (program_address : string),
    analyze_program now EmptyString program_address =
    Some (DetectionResult.Build
            program_address [] 100 "MINIMAL" Spec.closing true now).
Proof. intros now program_address. vm_compute. reflexivity. Qed.

(** The count of critical findings as the source takes it, a sum of ones. *)
Lemma sum_of_ones (A : Type) (l : list A) (acc : Z) :
  fold_left Z.add (map (fun _ => 1) l) acc = acc + Z.of_nat (List.length l).
Proof.
  revert acc. induction l as [|x l IH]; intros acc; cbn [map fold_left List.length].
  - lia.
  - rewrite IH. lia.
Qed.

Lemma critical_count_positive (vs : list Vuln.t) :
  0 < fold_left Z.add
        (map (fun _ => 1)
             (filter (fun v => 9 <=? get (Vuln.severity v) 0) vs)) 0
  <-> Exists Spec.critical vs.
Proof.
  rewrite sum_of_ones. rewrite Exists_exists. split.
  - intros H.
    destruct (filter (fun v => 9 <=? get (Vuln.severity v) 0) vs) as [|v l] eqn:E.
    + simpl in H. lia.
    + assert (Hin : In v (filter (fun v => 9 <=? get (Vuln.severity v) 0) vs)).
      { rewrite E. left. reflexivity. }
      apply filter_In in Hin. destruct Hin as [Hin Hv].
      exists v. split; [exact Hin|]. apply Z.leb_le. exact Hv.
  - intros [v [Hin Hv]].
    assert (Hf : In v (filter (fun v => 9 <=? get (Vuln.severity v) 0) vs)).
    { apply filter_In. split; [exact Hin|]. apply Z.leb_le. exact Hv. }
    destruct (filter (fun v => 9 <=? get (Vuln.severity v) 0) vs); [destruct Hf|].
    cbn [List.length]. lia.
Qed.

(** C5: the risk level follows the priority of the specification: CRITICAL
    when a finding has severity 9 or more or the score is below 30, then
    HIGH below 50, MEDIUM below 70, LOW below 85, and MINIMAL otherwise.  A
    critical finding forces CRITICAL whatever the score. *)
Theorem risk_level_priority :
  forall (security_score : Z) (vulnerabilities : list Vuln.t),
    let level := _determine_risk_level security_score vulnerabilities in
    let critical := Exists Spec.critical vulnerabilities in
    (critical \/ security_score < 30 -> level = "CRITICAL") /\
    (~ critical -> 30 <= security_score < 50 -> level = "HIGH") /\
    (~ critical -> 50 <= security_score < 70 -> level = "MEDIUM") /\
    (~ critical -> 70 <= security_score < 85 -> level = "LOW") /\
    (~ critical -> 85 <= security_score -> level = "MINIMAL").
Proof.
  intros score vs level critical. subst level critical.
  unfold _determine_risk_level.
  pose proof (critical_count_positive vs) as Hc.
  destruct (0 <? fold_left Z.add
              (map (fun _ => 1)
                   (filter (fun v => 9 <=? get (Vuln.severity v) 0) vs)) 0) eqn:E.
  - apply Z.ltb_lt in E. apply Hc in E.
    repeat split; intros; try reflexivity; contradiction.
  - apply Z.ltb_ge in E.
    assert (Hn : ~ Exists Spec.critical vs) by (intros H; apply Hc in H; lia).
    cbn [orb].
    destruct (Z.ltb_spec score 30); destruct (Z.ltb_spec score 50);
      destruct (Z.ltb_spec score 70); destruct (Z.ltb_spec score 85);
      repeat split; intros; try reflexivity; try lia;
      match goal with
      | H : _ \/ _ |- _ => destruct H; [contradiction | lia]
      end.
Qed.

(** The score of that finding alone, 92, reads MINIMAL; the finding makes
    the level CRITICAL. *)
Lemma risk_level_priority_witness :
  _calculate_security_score Samples.one_critical_finding = 92 /\
  _determine_risk_level 92 [] = "MINIMAL" /\
  _determine_risk_level
    (_calculate_security_score Samples.one_critical_finding) Samples.one_critical_finding
  = "CRITICAL".
Proof.
  split; [reflexivity|]. split.
  - apply (risk_level_priority 92 []).
    + intros H. inversion H.
    + lia.
  - apply (risk_level_priority
             (_calculate_security_score Samples.one_critical_finding) Samples.one_critical_finding).
    left. constructor. unfold Spec.critical. simpl. lia.
Defined.

(** The deduction of a finding in range is not negative. *)
Lemma deduction_nonneg (v : Vuln.t) :
  Spec.in_range v ->
  (0 <= F64.mul (F64.of_int (get (Vuln.severity v) 5%Z))
                (get (Vuln.confidence v) (F64.lit 5 10)))%Q.
Proof.
  intros [[Hs _] [Hc _]]. unfold F64.mul, F64.of_int.
  apply F64Facts.rnd_nonneg. apply Qmult_le_0_compat; [|exact Hc].
  apply F64Facts.rnd_nonneg. change 0%Q with (inject_Z 0).
  rewrite <- Zle_Qle. lia.
Qed.

(** Deductions never raise the running score above 100. *)
Lemma after_deductions_le_100 (vs : list Vuln.t) :
  Forall Spec.in_range vs -> (Spec.after_deductions vs <= 100)%Q.
Proof.
  unfold Spec.after_deductions.
  assert (H0 : (F64.of_int 100 <= 100)%Q) by (vm_compute; discriminate).
  revert H0. generalize (F64.of_int 100) as score.
  induction vs as [|v vs IH]; intros score Hscore Hall; cbn [fold_left].
  - exact Hscore.
  - inversion Hall as [|? ? Hv Hvs]; subst.
    apply IH; [|exact Hvs].
    unfold F64.sub.
    replace 100%Q with (F64.rnd 100) by (vm_compute; reflexivity).
    apply F64Facts.rnd_mono.
    pose proof (deduction_nonneg v Hv) as Hd.
    set (d := F64.mul _ _) in *.
    apply (Qle_trans _ (score - 0)).
    + apply Qplus_le_r. apply Qopp_le_compat. exact Hd.
    + unfold Qminus. rewrite Qplus_0_r. exact Hscore.
Qed.

Lemma score_is_folded (vs : list Vuln.t) :
  _calculate_security_score vs = Z.max 0 (F64.trunc (Spec.after_deductions vs)).
Proof. destruct vs; reflexivity. Qed.

(** C4: the security score is 100 less the deduction severity x confidence
    of every finding, subtracted in turn, truncated to an integer and
    clamped to [0,100]; it is 100 on the empty sequence and lies within
    [0,100]. *)
Theorem security_score_formula :
  _calculate_security_score [] = 100 /\
  forall vulnerabilities : list Vuln.t,
    Forall Spec.in_range vulnerabilities ->
    _calculate_security_score vulnerabilities = Spec.security_score vulnerabilities /\
    0 <= _calculate_security_score vulnerabilities <= 100.
Proof.
  split; [reflexivity|].
  intros vs Hall.
  pose proof (after_deductions_le_100 vs Hall) as Hle.
  apply (F64Facts.trunc_le _ 100 ltac:(lia)) in Hle.
  rewrite score_is_folded. unfold Spec.security_score, Spec.clamp. lia.
Qed.

(** The theorem on seven findings in range: 100 - 46.9 leaves 53. *)
Lemma security_score_formula_witness :
  _calculate_security_score Samples.seven_findings = 53 /\
  _calculate_security_score Samples.seven_findings
  = Spec.security_score Samples.seven_findings /\
  0 <= _calculate_security_score Samples.seven_findings <= 100.
Proof.
  split; [reflexivity|].
  apply (proj2 security_score_formula Samples.seven_findings).
  repeat constructor; vm_compute; discriminate.
Defined.

(** [any(indicator in code_lower for indicator in indicators)] *)
Lemma any_indicator (code : string) (indicators : list string) :
  existsb (fun indicator => Py.contains (Py.lower code) indicator) indicators = true
  <-> Exists (Spec.mentions code) indicators.
Proof.
  rewrite existsb_exists, Exists_exists. unfold Spec.mentions. reflexivity.
Qed.

Lemma no_indicator (code : string) (indicators : list string) :
  existsb (fun indicator => Py.contains (Py.lower code) indicator) indicators = false
  <-> Forall (fun indicator => ~ Spec.mentions code indicator) indicators.
Proof.
  rewrite <- not_true_iff_false, any_indicator.
  rewrite Forall_Exists_neg. reflexivity.
Qed.

(** The findings of the quantum assessor, indicator by indicator. *)
Lemma assess_quantum_resistance_unfolded (code : string) :
  let finding name severity recommendation :=
    Vuln.Build (Some "quantum_vulnerable") (Some severity)
      (Some ("Uses " ++ name ++ " which is vulnerable to quantum attacks")%string)
      (Some "Cryptographic implementation") (Some (F64.lit 95 100))
      (Some recommendation) in
  let classical :=
    finding "Classical Signature Scheme" 6 "Migrate to CRYSTALS-Dilithium or SPHINCS+" in
  let symmetric :=
    finding "Symmetric Encryption" 5
            "Use AES-256 minimum (provides 128-bit quantum security)" in
  let when indicator f :=
    if Py.contains (Py.lower code) indicator then [f] else [] in
  _assess_quantum_resistance code =
  when "ed25519" classical ++ when "secp256k1" classical
  ++ when "ecdsa" classical ++ when "rsa" classical
  ++ when "aes-128" symmetric ++ when "aes-192" symmetric.
Proof.
  cbv zeta. unfold _assess_quantum_resistance, quantum_patterns,
    _initialize_quantum_patterns.
  cbn [flat_map QuantumPattern.indicators QuantumPattern.quantum_safe negb
       QuantumPattern.name QuantumPattern.severity QuantumPattern.recommendation].
  change (Py.lower "ed25519") with "ed25519".
  change (Py.lower "secp256k1") with "secp256k1".
  change (Py.lower "ECDSA") with "ecdsa".
  change (Py.lower "RSA") with "rsa".
  change (Py.lower "AES-128") with "aes-128".
  change (Py.lower "AES-192") with "aes-192".
  repeat match goal with
         | |- context [if ?b then (if false then _ else _) else _] => destruct b
         | |- context [if ?b then _ else _] => destruct b
         end; reflexivity.
Qed.

(** C8, as the code has it: [_is_quantum_resistant] answers true exactly
    when the source mentions one of its quantum-safe indicators or none of
    its quantum-vulnerable indicators; when the assessor reports a
    classical signature scheme and no quantum-safe indicator is mentioned,
    the answer is false. *)
Theorem quantum_resistance_policy :
  forall code : string,
    (_is_quantum_resistant code = true <->
       Exists (Spec.mentions code) quantum_safe_indicators \/
       Forall (fun indicator => ~ Spec.mentions code indicator)
              quantum_vulnerable_indicators) /\
    ((exists f, In f (_assess_quantum_resistance code) /\
                Vuln.description f = Some Spec.classical_signature_note) ->
     Forall (fun indicator => ~ Spec.mentions code indicator)
            quantum_safe_indicators ->
     _is_quantum_resistant code = false).
Proof.
  intros code. unfold _is_quantum_resistant. split.
  - rewrite orb_true_iff, negb_true_iff, any_indicator, no_indicator. reflexivity.
  - intros [f [Hin Hdesc]] Hsafe.
    apply no_indicator in Hsafe. rewrite Hsafe. cbn [orb].
    apply negb_false_iff, any_indicator.
    rewrite assess_quantum_resistance_unfolded in Hin. cbv zeta in Hin.
    unfold quantum_vulnerable_indicators, Spec.mentions.
    repeat rewrite in_app_iff in Hin.
    destruct (Py.contains (Py.lower code) "ed25519") eqn:E1;
      [apply Exists_cons_hd; exact E1|].
    destruct (Py.contains (Py.lower code) "secp256k1") eqn:E2;
      [apply Exists_cons_tl, Exists_cons_hd; exact E2|].
    destruct (Py.contains (Py.lower code) "ecdsa") eqn:E3;
      [apply Exists_cons_tl, Exists_cons_tl, Exists_cons_hd; exact E3|].
    destruct (Py.contains (Py.lower code) "rsa") eqn:E4;
      [apply Exists_cons_tl, Exists_cons_tl, Exists_cons_tl, Exists_cons_hd; exact E4|].
    exfalso.
    destruct Hin as [[]|[[]|[[]|[[]|[Hin|Hin]]]]];
      [destruct (Py.contains (Py.lower code) "aes-128")
      |destruct (Py.contains (Py.lower code) "aes-192")];
      cbn [In] in Hin; try contradiction;
      destruct Hin as [Hin|[]]; subst f; discriminate Hdesc.
Qed.

(** The theorem at a source that signs with ed25519. *)
Lemma quantum_resistance_policy_witness :
  _is_quantum_resistant "let key = ed25519::Keypair::new();" = false.
Proof.
  apply (quantum_resistance_policy "let key = ed25519::Keypair::new();").
  - eexists. split; [left; reflexivity | reflexivity].
  - apply no_indicator. vm_compute. reflexivity.
Defined.

(** C8 as stated fails on a source that names AES-128: the assessor
    reports it as quantum-vulnerable, no quantum-safe indicator is
    present, and [_is_quantum_resistant] still answers true. *)
Lemma aes_is_flagged_yet_resistant :
  List.length (_assess_quantum_resistance "cipher = AES-128") = 1%nat /\
  existsb (fun indicator => Py.contains (Py.lower "cipher = AES-128") indicator)
          quantum_safe_indicators = false /\
  _is_quantum_resistant "cipher = AES-128" = true.
Proof. vm_compute. repeat split. Qed.

(** *** The recommendation list *)


Lemma insert_desc_perm (x : Vuln.t) (l : list Vuln.t) :
  Permutation (x :: l) (insert_desc x l).
Proof.
  induction l as [|y l IH]; cbn [insert_desc].
  - apply Permutation_refl.
  - destruct (sort_key x <? sort_key y).
    + eapply Permutation_trans; [apply perm_swap|]. apply perm_skip, IH.
    + apply Permutation_refl.
Qed.

Lemma sorted_desc_perm (vs : list Vuln.t) : Permutation vs (sorted_desc vs).
Proof.
  induction vs as [|x vs IH]; cbn [sorted_desc fold_right].
  - apply perm_nil.
  - eapply Permutation_trans; [apply perm_skip, IH|]. apply insert_desc_perm.
Qed.





(** On the name of a kind [str.upper] is the upper case of the
    specification, and brings no closing bracket. *)
Lemma upper_char_of_kind (a : ascii) :
  Spec.kind_char a = true ->
  (Py.ord a =? 223)%nat = false /\
  Py.upper_char a = Spec.translate Spec.small_letters Spec.capital_letters a /\
  Ascii.eqb (Spec.translate Spec.small_letters Spec.capital_letters a) "]" = false.
Proof.
  destruct a as [[] [] [] [] [] [] [] []]; intros H; vm_compute in H;
    try discriminate H; vm_compute; repeat split.
Qed.

Lemma upper_of_kind (s : string) :
  Spec.kind_name s = true -> Py.upper s = Spec.uppercased s.
Proof.
  induction s as [|a s IH]; intros H; [reflexivity|].
  cbn [Spec.kind_name] in H. apply andb_true_iff in H. destruct H as [Ha Hs].
  destruct (upper_char_of_kind a Ha) as [E1 [E2 _]].
  cbn [Py.upper Spec.uppercased]. rewrite E1, E2, (IH Hs). reflexivity.
Qed.

Lemma uppercased_kind_has_no_bracket (s : string) :
  Spec.kind_name s = true -> Py.has_char "]" (Spec.uppercased s) = false.
Proof.
  induction s as [|a s IH]; intros H; [reflexivity|].
  cbn [Spec.kind_name] in H. apply andb_true_iff in H. destruct H as [Ha Hs].
  destruct (upper_char_of_kind a Ha) as [_ [_ E3]].
  cbn [Spec.uppercased Py.has_char]. rewrite E3, (IH Hs). reflexivity.
Qed.

Lemma mem_is_added_before (text : string) (seen : list string) :
  mem text seen = Spec.added_before text seen.
Proof.
  unfold mem, Spec.added_before.
  destruct (in_dec string_dec text seen) as [Hin|Hout].
  - apply existsb_exists. exists text. split; [exact Hin | apply String.eqb_refl].
  - destruct (existsb (String.eqb text) seen) eqn:E; [|reflexivity].
    apply existsb_exists in E. destruct E as [x [Hx Ex]].
    apply String.eqb_eq in Ex. subst x. contradiction.
Qed.

(** The line the loop writes for a finding of the data model. *)
Lemma line_of_categorised (v : Vuln.t) :
  Spec.categorised v ->
  ("[" ++ Py.upper (get (Vuln.type v) "unknown") ++ "] "
       ++ get (Vuln.recommendation v) EmptyString)%string
  = Spec.tagged v.
Proof.
  intros [kind [Ht Hk]]. unfold Spec.tagged, Spec.tag, Spec.category, Spec.rec_text.
  rewrite Ht. cbn [get]. rewrite (upper_of_kind kind Hk).
  destruct (Vuln.recommendation v); reflexivity.
Qed.

Lemma rec_text_is_get (v : Vuln.t) :
  get (Vuln.recommendation v) EmptyString = Spec.rec_text v.
Proof. unfold Spec.rec_text. destruct (Vuln.recommendation v); reflexivity. Qed.

(** The loop over the top findings, as the list it builds. *)
Lemma add_unique_loop (l : list Vuln.t) (recommendations seen : list string) :
  Forall Spec.categorised l ->
  fst (fold_left add_unique l (recommendations, seen))
  = recommendations ++ map Spec.tagged (Spec.first_mentions seen l).
Proof.
  revert recommendations seen.
  induction l as [|v l IH]; intros recs seen Hc; cbn [fold_left Spec.first_mentions].
  - cbn. symmetry. apply app_nil_r.
  - inversion Hc as [|? ? Hv Hl]; subst.
    unfold add_unique at 2.
    rewrite (line_of_categorised v Hv), rec_text_is_get, mem_is_added_before.
    destruct (String.eqb (Spec.rec_text v) EmptyString); cbn [negb andb orb].
    + apply IH, Hl.
    + destruct (Spec.added_before (Spec.rec_text v) seen); cbn [negb].
      * apply IH, Hl.
      * rewrite (IH _ _ Hl). cbn [map]. rewrite <- app_assoc. reflexivity.
Qed.

(** The loop writes one line at most for each finding it goes through. *)
Lemma add_unique_length (l : list Vuln.t) (recommendations seen : list string) :
  (List.length (fst (fold_left add_unique l (recommendations, seen)))
   <= List.length recommendations + List.length l)%nat.
Proof.
  revert recommendations seen.
  induction l as [|v l IH]; intros recs seen; cbn [fold_left List.length].
  - cbn [fst]. lia.
  - unfold add_unique at 2.
    destruct (negb _ && negb _).
    + specialize (IH (recs ++ [("[" ++ Py.upper (get (Vuln.type v) "unknown") ++ "] "
                                    ++ get (Vuln.recommendation v) EmptyString)%string])
                     (get (Vuln.recommendation v) EmptyString :: seen)).
      rewrite length_app in IH. cbn [List.length] in IH. lia.
    + specialize (IH recs seen). lia.
Qed.

(** The list of recommendations: the lines of the loop, the line on the
    findings left out, the two closing lines. *)
Lemma generate_recommendations_shape (vs : list Vuln.t) :
  _generate_recommendations vs
  = fst (fold_left add_unique (firstn 5 (sorted_desc vs)) ([], []))
    ++ Spec.omitted_line (List.length vs) ++ Spec.closing.
Proof.
  unfold _generate_recommendations, Spec.omitted_line, Spec.closing.
  destruct (fold_left add_unique (firstn 5 (sorted_desc vs)) ([], [])) as [recs seen].
  cbn [fst].
  destruct (5 <? Z.of_nat (List.length vs)); repeat rewrite <- app_assoc; reflexivity.
Qed.

Lemma in_firstn (A : Type) (n : nat) (l : list A) (x : A) :
  In x (firstn n l) -> In x l.
Proof.
  revert l. induction n as [|n IH]; intros [|y l] H; cbn in *; try contradiction.
  destruct H as [H|H]; [left; exact H | right; apply IH, H].
Qed.

Lemma top_five_categorised (vs : list Vuln.t) :
  Forall Spec.categorised vs -> Forall Spec.categorised (firstn 5 (sorted_desc vs)).
Proof.
  intros H. apply Forall_forall. intros v Hv. apply in_firstn in Hv.
  apply (Permutation_in _ (Permutation_sym (sorted_desc_perm vs))) in Hv.
  rewrite Forall_forall in H. apply H, Hv.
Qed.

Lemma generate_recommendations_eq (vs : list Vuln.t) :
  Forall Spec.categorised vs ->
  _generate_recommendations vs = Spec.recommendations vs.
Proof.
  intros H. rewrite generate_recommendations_shape. unfold Spec.recommendations.
  rewrite (add_unique_loop _ [] [] (top_five_categorised vs H)). reflexivity.
Qed.

(** The texts brought by [first_mentions] are pairwise different. *)
Lemma first_mentions_fresh (l : list Vuln.t) (seen : list string) :
  NoDup (map Spec.rec_text (Spec.first_mentions seen l)) /\
  forall v, In v (Spec.first_mentions seen l) ->
            In v l /\ ~ In (Spec.rec_text v) seen.
Proof.
  revert seen. induction l as [|x l IH]; intros seen; cbn [Spec.first_mentions].
  - split; [constructor | intros v []].
  - destruct (String.eqb (Spec.rec_text x) EmptyString) eqn:E0; cbn [orb].
    + destruct (IH seen) as [Hnd Hin]. split; [exact Hnd|].
      intros v Hv. destruct (Hin v Hv). split; [right|]; assumption.
    + unfold Spec.added_before.
      destruct (in_dec string_dec (Spec.rec_text x) seen) as [Em|Em].
      * destruct (IH seen) as [Hnd Hin]. split; [exact Hnd|].
        intros v Hv. destruct (Hin v Hv). split; [right|]; assumption.
      * destruct (IH (Spec.rec_text x :: seen)) as [Hnd Hin]. split.
        -- cbn [map]. constructor; [|exact Hnd].
           intros Hx. apply in_map_iff in Hx. destruct Hx as [v [Hv Hvin]].
           destruct (Hin v Hvin) as [_ Hm].
           apply Hm. left. symmetry. exact Hv.
        -- intros v [Hv|Hv].
           ++ subst v. split; [left; reflexivity | exact Em].
           ++ destruct (Hin v Hv) as [Hl Hm]. split; [right; exact Hl|].
              intros Hs. apply Hm. right. exact Hs.
Qed.

(** A tag without bracket ends at the first closing bracket of the line. *)
Lemma tagged_line_inj (t1 t2 r1 r2 : string) :
  Py.has_char "]" t1 = false -> Py.has_char "]" t2 = false ->
  (t1 ++ "] " ++ r1 = t2 ++ "] " ++ r2)%string -> r1 = r2.
Proof.
  revert t2. induction t1 as [|a t1 IH]; intros [|b t2] H1 H2 E; cbn in *.
  - injection E as E. exact E.
  - injection E as Eb _. subst b.
    rewrite Ascii.eqb_refl in H2. discriminate H2.
  - injection E as Ea _. subst a.
    rewrite Ascii.eqb_refl in H1. discriminate H1.
  - injection E as _ E.
    apply orb_false_iff in H1. apply orb_false_iff in H2.
    apply (IH t2); tauto.
Qed.

Lemma tag_has_no_bracket (v : Vuln.t) :
  Spec.categorised v -> Py.has_char "]" (Spec.tag v) = false.
Proof.
  intros [kind [Ht Hk]]. unfold Spec.tag, Spec.category. rewrite Ht.
  apply uppercased_kind_has_no_bracket, Hk.
Qed.

Lemma tagged_inj (a b : Vuln.t) :
  Spec.categorised a -> Spec.categorised b ->
  Spec.tagged a = Spec.tagged b -> Spec.rec_text a = Spec.rec_text b.
Proof.
  unfold Spec.tagged. intros Ha Hb E.
  injection E as E.
  apply (tagged_line_inj _ _ _ _ (tag_has_no_bracket a Ha) (tag_has_no_bracket b Hb) E).
Qed.

Lemma tagged_lines_nodup (l : list Vuln.t) :
  Forall Spec.categorised l -> NoDup (map Spec.rec_text l) ->
  NoDup (map Spec.tagged l).
Proof.
  induction l as [|x l IH]; intros Hp Hnd; cbn [map] in *.
  - constructor.
  - inversion Hp as [|? ? Hx Hl]; subst. inversion Hnd as [|? ? Hnin Hnd']; subst.
    constructor; [|apply IH; assumption].
    intros Hin. apply in_map_iff in Hin. destruct Hin as [y [Ey Hy]].
    apply Hnin. apply in_map_iff. exists y. split; [|exact Hy].
    apply tagged_inj; [| |exact Ey]; [|exact Hx].
    rewrite Forall_forall in Hl. apply Hl, Hy.
Qed.

Lemma recommendations_nodup (vs : list Vuln.t) :
  Forall Spec.categorised vs -> NoDup (Spec.recommendations vs).
Proof.
  intros Hp. unfold Spec.recommendations.
  set (top := Spec.first_mentions [] (firstn 5 (sorted_desc vs))).
  assert (Htop : Forall Spec.categorised top).
  { apply Forall_forall. intros v Hv.
    apply (first_mentions_fresh (firstn 5 (sorted_desc vs)) []) in Hv.
    destruct Hv as [Hv _].
    pose proof (top_five_categorised vs Hp) as H5.
    rewrite Forall_forall in H5. apply H5, Hv. }
  assert (Hfirst : forall s, In s (map Spec.tagged top) -> Spec.first_char s = Some "["%char).
  { intros s Hs. apply in_map_iff in Hs. destruct Hs as [v [Hv _]]. subst s.
    reflexivity. }
  assert (Htail : NoDup (Spec.omitted_line (List.length vs) ++ Spec.closing) /\
                  forall s, In s (Spec.omitted_line (List.length vs) ++ Spec.closing) ->
                            Spec.first_char s <> Some "["%char).
  { unfold Spec.omitted_line.
    destruct (5 <? Z.of_nat (List.length vs)); cbn [app Spec.closing].
    - split.
      + constructor.
        * intros [H|[H|[]]]; discriminate H.
        * constructor; [intros [H|[]]; discriminate H|].
          constructor; [intros []|constructor].
      + intros s [H|[H|[H|[]]]]; subst s; discriminate.
    - split.
      + constructor; [intros [H|[]]; discriminate H|].
        constructor; [intros []|constructor].
      + intros s [H|[H|[]]]; subst s; discriminate. }
  destruct Htail as [Hnd Hne].
  apply NoDup_app.
  - apply tagged_lines_nodup; [exact Htop|].
    apply (first_mentions_fresh (firstn 5 (sorted_desc vs)) []).
  - exact Hnd.
  - intros s Hs Hs'. apply (Hne s Hs'). apply Hfirst, Hs.
Qed.



(** *** The categories the detector reports *)

Lemma Forall_flat_map (A B : Type) (P : B -> Prop) (f : A -> list B) (l : list A) :
  (forall x, In x l -> Forall P (f x)) -> Forall P (flat_map f l).
Proof.
  intros H. apply Forall_forall. intros y Hy.
  apply in_flat_map in Hy. destruct Hy as [x [Hx Hy]].
  specialize (H x Hx). rewrite Forall_forall in H. apply H, Hy.
Qed.

Lemma detect_pattern_reported (code : string) (pattern : VulnerabilityPattern.t) :
  In pattern patterns -> Forall Spec.reported (_detect_pattern code pattern).
Proof.
  intros Hp. unfold _detect_pattern. apply Forall_flat_map. intros span _.
  destruct (F64.leb _ _); [|constructor].
  constructor; [|constructor].
  eexists. split; [reflexivity|]. cbn [Vuln.type].
  unfold patterns, _initialize_patterns in Hp. cbn [In] in Hp.
  destruct Hp as [H|[H|[H|[H|[H|[]]]]]]; subst pattern; cbn; tauto.
Qed.

Lemma anomaly_findings_reported (score : Q) : Forall Spec.reported (anomaly_findings score).
Proof.
  unfold anomaly_findings. destruct (F64.ltb _ _); [|constructor].
  constructor; [|constructor]. eexists. split; [reflexivity|]. cbn. tauto.
Qed.

Lemma assess_quantum_resistance_reported (code : string) :
  Forall Spec.reported (_assess_quantum_resistance code).
Proof.
  unfold _assess_quantum_resistance.
  apply Forall_flat_map. intros p _. apply Forall_flat_map. intros ind _.
  destruct (Py.contains _ _); [|constructor].
  destruct (negb _); [|constructor].
  constructor; [|constructor]. eexists. split; [reflexivity|]. cbn. tauto.
Qed.

(** Every finding of an analysis carries one of the reported types. *)
Lemma analyze_program_reported (now : Z) (code addr : string) (r : DetectionResult.t) :
  analyze_program now code addr = Some r ->
  Forall Spec.reported (DetectionResult.vulnerabilities r).
Proof.
  unfold analyze_program, _ml_anomaly_detection.
  destruct (_compute_anomaly_score (_extract_features code)) as [score|];
    [|discriminate].
  intros H. injection H as H. subst r. cbn [DetectionResult.vulnerabilities].
  rewrite match_historical_exploits_nil, app_nil_r.
  apply Forall_forall. intros v Hv.
  apply in_app_or in Hv. destruct Hv as [Hv|Hv];
    [apply in_app_or in Hv; destruct Hv as [Hv|Hv]|].
  - change (In v (flat_map (fun p => _detect_pattern code p) patterns)) in Hv.
    revert v Hv. apply Forall_forall, Forall_flat_map.
    intros p Hp. apply detect_pattern_reported, Hp.
  - revert v Hv. apply Forall_forall, anomaly_findings_reported.
  - revert v Hv. apply Forall_forall, assess_quantum_resistance_reported.
Qed.

(** C3, on the code: no analysis reports a finding of type "hardcoded_key";
    the snippet of [test_detects_hardcoded_keys], a public-key literal
    passed to [Pubkey::from_str], is analysed without any finding. *)
Theorem hardcoded_key_is_never_reported :
  (forall (now : Z) (code addr : string) (r : DetectionResult.t),
      analyze_program now code addr = Some r ->
      Forall (fun v => Vuln.type v <> Some "hardcoded_key")
             (DetectionResult.vulnerabilities r)) /\
  (forall (now : Z) (addr : string),
      analyze_program now Snippets.hardcoded_keys addr =
      Some (DetectionResult.Build addr [] 100 "MINIMAL" Spec.closing true now)).
Proof.
  split.
  - intros now code addr r H.
    apply analyze_program_reported in H.
    apply (Forall_impl _ (P := Spec.reported)); [|exact H].
    intros v [t [Ht Hin]] E. rewrite Ht in E. injection E as E. subst t.
    cbn in Hin. repeat (destruct Hin as [Hin|Hin]; [discriminate Hin|]).
    exact Hin.
  - intros now addr. vm_compute. reflexivity.
Qed.

Lemma hardcoded_key_is_never_reported_witness :
  Forall (fun v => Vuln.type v <> Some "hardcoded_key")
         (DetectionResult.vulnerabilities
            (DetectionResult.Build "id" [] 100 "MINIMAL" Spec.closing true 0)).
Proof.
  apply (proj1 hardcoded_key_is_never_reported 0 Snippets.hardcoded_keys "id").
  vm_compute. reflexivity.
Defined.

(** C1, on the code: the snippet of [test_detects_missing_signer_check]
    calls [transfer] with no [require!] guard anywhere.  The missing-signer
    pattern matches two of its lines, each at confidence 0.7 + 0.1, below
    the threshold 0.85 of the pattern: the analysis reports no finding, and
    so none of severity 9 or more. *)
Theorem missing_signer_check_goes_unreported :
  forall (now : Z) (addr : string) (pattern : VulnerabilityPattern.t),
    Py.contains (Py.lower Snippets.missing_signer_check) "transfer(" = true /\
    Py.contains Snippets.missing_signer_check "require!" = false /\
    Re.finditer missing_signer_re Snippets.missing_signer_check
    = [(127, 173); (174, 211)]%nat /\
    map (fun span => _calculate_confidence Snippets.missing_signer_check span pattern)
        (Re.finditer missing_signer_re Snippets.missing_signer_check)
    = [F64.add (F64.lit 7 10) (F64.lit 1 10);
       F64.add (F64.lit 7 10) (F64.lit 1 10)] /\
    F64.leb (F64.lit 85 100) (F64.add (F64.lit 7 10) (F64.lit 1 10)) = false /\
    analyze_program now Snippets.missing_signer_check addr =
    Some (DetectionResult.Build addr [] 100 "MINIMAL" Spec.closing true now).
Proof.
  intros now addr pattern. vm_compute. repeat split.
Qed.

(** C2, on the code: the snippet of [test_detects_reentrancy_pattern], an
    [invoke] followed by a balance update, is not matched by the reentrancy
    pattern, which asks for the text [state =] on the next line; a snippet
    of that very shape is matched, at confidence 0.7 + 0.1, below the
    threshold 0.95.  Neither analysis reports a finding. *)
Theorem reentrancy_goes_unreported :
  forall (now : Z) (addr : string) (pattern : VulnerabilityPattern.t),
    Re.finditer reentrancy_re Snippets.reentrancy_pattern = [] /\
    analyze_program now Snippets.reentrancy_pattern addr =
    Some (DetectionResult.Build addr [] 100 "MINIMAL" Spec.closing true now) /\
    Re.finditer reentrancy_re Snippets.call_then_state_update = [(0, 31)%nat] /\
    F64.leb (F64.lit 95 100)
            (_calculate_confidence Snippets.call_then_state_update (0, 31)%nat pattern)
    = false /\
    analyze_program now Snippets.call_then_state_update addr =
    Some (DetectionResult.Build addr [] 100 "MINIMAL" Spec.closing true now).
Proof.
  intros now addr pattern. vm_compute. repeat split.
Qed.

(** *** The anomaly detector *)

Lemma min_le_r (x y : Q) : (F64.min x y <= y)%Q.
Proof.
  unfold F64.min, F64.ltb.
  destruct (Qle_bool x y) eqn:E; cbn [negb].
  - apply Qle_bool_iff. exact E.
  - apply Qle_refl.
Qed.

Lemma extract_features_length (code : string) :
  List.length (_extract_features code) = 8%nat.
Proof. unfold _extract_features. cbn [map List.length]. reflexivity. Qed.

(** On a vector of eight features or more the score is computed, and is
    the one of the specification. *)
Lemma compute_anomaly_score_defined (features : list Q) :
  (8 <= List.length features)%nat ->
  _compute_anomaly_score features = Some (Spec.anomaly_score features).
Proof.
  intros H.
  do 8 (destruct features as [|? features]; [cbn in H; lia|]).
  unfold _compute_anomaly_score, Spec.anomaly_score.
  cbn [nth_error nth]. reflexivity.
Qed.

(* ================================================================== *)
(** ** Further facts about binary64 rounding *)
(* ================================================================== *)

Module F64More.

Import F64 F64Facts.

Local Open Scope Q_scope.

Lemma rne_compat (x y : Q) : x == y -> rne x = rne y.
Proof.
  intros H. unfold rne. rewrite (Qfloor_comp x y H).
  assert (E : x - inject_Z (Qfloor y) == y - inject_Z (Qfloor y)) by (rewrite H; reflexivity).
  rewrite (Qcompare_comp _ _ E (1 # 2) (1 # 2) (Qeq_refl _)). reflexivity.
Qed.

Lemma rne_Z (k : Z) : rne (inject_Z k) = k.
Proof.
  unfold rne. rewrite Qfloor_Z.
  assert (E : inject_Z k - inject_Z k == 0) by ring.
  rewrite (Qcompare_comp _ _ E (1 # 2) (1 # 2) (Qeq_refl _)). reflexivity.
Qed.

Lemma pow2_opp (e : Z) : pow2 (- e) * pow2 e == 1.
Proof. rewrite <- pow2_add. replace (- e + e)%Z with 0%Z by lia. reflexivity. Qed.

(** An integer below 2^53 is a binary64 value. *)
Lemma rnd_pos_int_exact (z : Z) :
  (0 < z < 2 ^ 53)%Z -> rnd_pos (inject_Z z) == inject_Z z.
Proof.
  intros [Hpos Hlt].
  assert (Hq : 0 < inject_Z z) by (change 0 with (inject_Z 0); rewrite <- Zlt_Qlt; exact Hpos).
  destruct (ilog2_spec _ Hq) as [Hlo _].
  assert (Hk : (ilog2 (inject_Z z) < 53)%Z).
  { apply pow2_lt_inv. eapply Qle_lt_trans; [exact Hlo|].
    rewrite <- (pow2_Z 53) by lia. rewrite <- Zlt_Qlt. exact Hlt. }
  rewrite rnd_pos_eq.
  set (e := ulp_exp (inject_Z z)).
  assert (He : (-1074 <= e <= 0)%Z) by (subst e; unfold ulp_exp; lia).
  assert (Hs : inject_Z z / pow2 e == inject_Z (z * 2 ^ (- e))).
  { rewrite inject_Z_mult, (pow2_Z (- e)) by lia.
    apply Qmult_inj_r with (z := pow2 e); [apply Qnot_eq_sym, Qlt_not_eq, pow2_pos|].
    unfold Qdiv. rewrite <- !Qmult_assoc.
    rewrite (Qmult_comm (/ pow2 e)), Qmult_inv_r, pow2_opp
      by (apply Qnot_eq_sym, Qlt_not_eq, pow2_pos).
    reflexivity. }
  rewrite (rne_compat _ _ Hs), rne_Z.
  rewrite inject_Z_mult, (pow2_Z (- e)) by lia.
  rewrite <- Qmult_assoc, pow2_opp. ring.
Qed.

Lemma of_int_exact (z : Z) : (0 <= z < 2 ^ 53)%Z -> of_int z == inject_Z z.
Proof.
  intros [Hpos Hlt]. unfold of_int, rnd.
  destruct (Qcompare_spec (inject_Z z) 0) as [E|L|G].
  - symmetry. exact E.
  - exfalso. change 0 with (inject_Z 0) in L. rewrite <- Zlt_Qlt in L. lia.
  - change 0 with (inject_Z 0) in G. rewrite <- Zlt_Qlt in G.
    apply rnd_pos_int_exact. lia.
Qed.

Lemma trunc_ge (x : Q) (k : Z) : (0 <= k)%Z -> inject_Z k <= x -> (k <= trunc x)%Z.
Proof.
  intros Hk H. unfold trunc. destruct x as [n d]. cbn [Qnum Qden].
  unfold Qle in H. cbn in H.
  assert (Hn : (0 <= n)%Z) by nia.
  rewrite Z.quot_div_nonneg by lia.
  apply Z.div_le_lower_bound; lia.
Qed.

End F64More.

(* ================================================================== *)
(** ** Further properties of the detector *)
(* ================================================================== *)

(** *** The confidence gate *)

Ltac split_signals :=
  repeat match goal with
         | |- context [Py.contains ?w ?p] => destruct (Py.contains w p)
         end.

(** X1: a match of a catalogue pattern is reported exactly when its window
    shows enough of the three context signals ([unsafe], [unwrap()], no
    [require!]): one for the quantum pattern, two for the missing-signer
    and uninitialized-account patterns, all three for the integer-overflow
    and reentrancy patterns. *)
Theorem report_needs_context_signals :
  forall (code : string) (span : nat * nat) (pattern : VulnerabilityPattern.t),
    In pattern patterns ->
    F64.leb (VulnerabilityPattern.confidence_threshold pattern)
            (_calculate_confidence code span pattern)
    = (Props.signals_needed (VulnerabilityPattern.vuln_type pattern)
       <=? Props.signals code span)%nat.
Proof.
  intros code span pattern Hp.
  unfold _calculate_confidence, Props.signals, Props.window. cbv zeta.
  unfold patterns, _initialize_patterns in Hp. cbn [In] in Hp.
  destruct Hp as [H|[H|[H|[H|[H|[]]]]]]; subst pattern;
    cbn [VulnerabilityPattern.confidence_threshold VulnerabilityPattern.vuln_type
         Props.signals_needed];
    split_signals; vm_compute; reflexivity.
Qed.

(** The reentrancy match of the call-then-update snippet shows one signal
    of the three it needs. *)
Lemma report_needs_context_signals_witness :
  F64.leb (VulnerabilityPattern.confidence_threshold (Props.entry 3))
          (_calculate_confidence Snippets.call_then_state_update (0, 31)%nat
             (Props.entry 3))
  = false.
Proof.
  rewrite (report_needs_context_signals Snippets.call_then_state_update (0, 31)%nat
             (Props.entry 3)).
  - vm_compute. reflexivity.
  - unfold Props.entry, patterns, _initialize_patterns. cbn [nth In].
    right. right. right. left. reflexivity.
Defined.

Lemma calculate_confidence_bounds
  (code : string) (span : nat * nat) (pattern : VulnerabilityPattern.t) :
  (F64.lit 7 10 <= _calculate_confidence code span pattern <= F64.lit 95 100)%Q.
Proof.
  unfold _calculate_confidence. cbv zeta.
  split_signals; vm_compute; split; discriminate.
Qed.

(** X2: the confidence of a match lies between 0.7 and 0.95 whatever the
    source and the pattern; the cap at 1.0 is never reached. *)
Theorem confidence_between_base_and_all_boosts :
  forall (code : string) (span : nat * nat) (pattern : VulnerabilityPattern.t),
    (F64.lit 7 10 <= _calculate_confidence code span pattern <= F64.lit 95 100)%Q.
Proof.
  intros code span pattern. unfold _calculate_confidence. cbv zeta.
  split_signals; vm_compute; split; discriminate.
Qed.

(** *** The result of an analysis *)

(** The findings of an analysis: those of the five patterns in catalogue
    order, of the anomaly detector, of the quantum assessor. *)
Lemma analyze_program_eq (now : Z) (code addr : string) :
  let vs :=
    flat_map (fun pattern => _detect_pattern code pattern) patterns
    ++ anomaly_findings (Spec.anomaly_score (_extract_features code))
    ++ _assess_quantum_resistance code in
  analyze_program now code addr =
  Some (DetectionResult.Build addr vs
          (_calculate_security_score vs)
          (_determine_risk_level (_calculate_security_score vs) vs)
          (_generate_recommendations vs)
          (_is_quantum_resistant code) now).
Proof.
  intros vs. subst vs. unfold analyze_program, _ml_anomaly_detection.
  rewrite (compute_anomaly_score_defined (_extract_features code))
    by (rewrite extract_features_length; lia).
  rewrite match_historical_exploits_nil, !app_nil_r, <- !app_assoc.
  reflexivity.
Qed.

Lemma detect_pattern_in_range (code : string) (pattern : VulnerabilityPattern.t) :
  In pattern patterns ->
  Forall (fun v => Spec.in_range v /\ Props.complete v) (_detect_pattern code pattern).
Proof.
  intros Hp. unfold _detect_pattern. apply Forall_flat_map. intros span _.
  destruct (F64.leb _ _); [|constructor].
  constructor; [|constructor].
  pose proof (calculate_confidence_bounds code span pattern) as [Hlo Hhi].
  split.
  - split; cbn [Vuln.severity Vuln.confidence get].
    + unfold patterns, _initialize_patterns in Hp. cbn [In] in Hp.
      destruct Hp as [H|[H|[H|[H|[H|[]]]]]]; subst pattern; cbn; lia.
    + split.
      * eapply Qle_trans; [|exact Hlo]. vm_compute. discriminate.
      * eapply Qle_trans; [exact Hhi|]. vm_compute. discriminate.
  - repeat split; discriminate.
Qed.

(** Above 0.70 and at most 1.0 the severity of the anomaly finding, the
    integer part of ten times the score, is 7, 8, 9 or 10. *)
Lemma anomaly_findings_in_range (score : Q) :
  (score <= 1)%Q ->
  Forall (fun v => Spec.in_range v /\ Props.complete v) (anomaly_findings score).
Proof.
  intros Hle. unfold anomaly_findings.
  destruct (F64.ltb (F64.lit 7 10) score) eqn:E; [|constructor].
  constructor; [|constructor].
  assert (Hgt : (F64.lit 7 10 <= score)%Q).
  { unfold F64.ltb in E. apply negb_true_iff in E.
    destruct (Qlt_le_dec (F64.lit 7 10) score) as [H|H].
    - apply Qlt_le_weak, H.
    - apply Qle_bool_iff in H. congruence. }
  split; [|repeat split; discriminate].
  split; cbn [Vuln.severity Vuln.confidence get].
  - unfold F64.mul. split.
    + apply (Z.le_trans _ 7); [lia|].
      apply F64More.trunc_ge; [lia|].
      replace (inject_Z 7) with (F64.rnd (F64.lit 7 10 * F64.of_int 10))
        by (vm_compute; reflexivity).
      apply F64Facts.rnd_mono.
      apply Qmult_le_compat_r; [exact Hgt | vm_compute; discriminate].
    + apply F64Facts.trunc_le; [lia|].
      replace (inject_Z 10) with (F64.rnd (1 * F64.of_int 10))
        by (vm_compute; reflexivity).
      apply F64Facts.rnd_mono.
      apply Qmult_le_compat_r; [exact Hle | vm_compute; discriminate].
  - split; [|exact Hle].
    eapply Qle_trans; [|exact Hgt]. vm_compute. discriminate.
Qed.

Lemma assess_quantum_resistance_in_range (code : string) :
  Forall (fun v => Spec.in_range v /\ Props.complete v)
         (_assess_quantum_resistance code).
Proof.
  unfold _assess_quantum_resistance.
  apply Forall_flat_map. intros p Hp. apply Forall_flat_map. intros ind _.
  destruct (Py.contains _ _); [|constructor].
  destruct (QuantumPattern.quantum_safe p) eqn:Es; cbn [negb]; [constructor|].
  constructor; [|constructor].
  split; [|repeat split; discriminate].
  split; cbn [Vuln.severity Vuln.confidence get].
  - unfold quantum_patterns, _initialize_quantum_patterns in Hp. cbn [In] in Hp.
    destruct Hp as [H|[H|[H|[]]]]; subst p; cbn in *; try lia; discriminate.
  - vm_compute. split; discriminate.
Qed.

Lemma all_findings_well_formed (code : string) :
  Forall (fun v => Spec.in_range v /\ Props.complete v /\ Spec.reported v)
         (Props.all_findings code).
Proof.
  assert (Hin : Forall (fun v => Spec.in_range v /\ Props.complete v)
                       (Props.all_findings code)).
  { unfold Props.all_findings. apply Forall_app. split; [|apply Forall_app; split].
    - apply Forall_flat_map. intros p Hp. apply detect_pattern_in_range, Hp.
    - apply anomaly_findings_in_range. apply (min_le_r _ (F64.lit 1 1)).
    - apply assess_quantum_resistance_in_range. }
  assert (Hrep : Forall Spec.reported (Props.all_findings code)).
  { unfold Props.all_findings. apply Forall_app. split; [|apply Forall_app; split].
    - apply Forall_flat_map. intros p Hp. apply detect_pattern_reported, Hp.
    - apply anomaly_findings_reported.
    - apply assess_quantum_resistance_reported. }
  rewrite Forall_forall in *. intros v Hv.
  destruct (Hin v Hv) as [H1 H2].
  split; [exact H1|]. split; [exact H2|]. apply Hrep, Hv.
Qed.

Lemma analyze_program_findings (now : Z) (code addr : string) (r : DetectionResult.t) :
  analyze_program now code addr = Some r ->
  DetectionResult.vulnerabilities r = Props.all_findings code.
Proof.
  intros H. rewrite analyze_program_eq in H. cbv zeta in H.
  apply (f_equal Props.findings_of) in H.
  cbn [Props.findings_of DetectionResult.vulnerabilities] in H.
  symmetry. exact H.
Qed.

(** X3: every finding of an analysis is a complete dictionary within the
    ranges of the data model: all six keys, a severity between 1 and 10, a
    confidence between 0 and 1, and one of the six reported types. *)
Theorem findings_are_well_formed :
  forall (now : Z) (code addr : string) (r : DetectionResult.t),
    analyze_program now code addr = Some r ->
    Forall (fun v => Spec.in_range v /\ Props.complete v /\ Spec.reported v)
           (DetectionResult.vulnerabilities r).
Proof.
  intros now code addr r H.
  rewrite (analyze_program_findings now code addr r H).
  apply all_findings_well_formed.
Qed.

(** The theorem on a source that names ed25519. *)
Lemma findings_are_well_formed_witness :
  Forall (fun v => Spec.in_range v /\ Props.complete v /\ Spec.reported v)
         (Props.findings_of (analyze_program 0 "sign with ed25519" "id")).
Proof.
  destruct (analyze_program 0 "sign with ed25519" "id") as [r|] eqn:E.
  - exact (findings_are_well_formed 0 "sign with ed25519" "id" r E).
  - constructor.
Defined.

(** *** The quantum assessor against [_is_quantum_resistant] *)

Lemma quantum_silence (code : string) :
  Forall (fun indicator => ~ Spec.mentions code indicator) Props.assessed_indicators ->
  _assess_quantum_resistance code = [].
Proof.
  intros H. apply no_indicator in H.
  unfold Props.assessed_indicators in H. cbn [existsb] in H.
  rewrite assess_quantum_resistance_unfolded. cbv zeta.
  destruct (Py.contains (Py.lower code) "ed25519"); [discriminate H|].
  destruct (Py.contains (Py.lower code) "secp256k1"); [discriminate H|].
  destruct (Py.contains (Py.lower code) "ecdsa"); [discriminate H|].
  destruct (Py.contains (Py.lower code) "rsa"); [discriminate H|].
  destruct (Py.contains (Py.lower code) "aes-128"); [discriminate H|].
  destruct (Py.contains (Py.lower code) "aes-192"); [discriminate H|].
  reflexivity.
Qed.

(** X4: the quantum assessor reports nothing exactly when the source
    mentions none of ed25519, secp256k1, ecdsa, rsa, aes-128, aes-192,
    letter case apart.  It reports one finding for each of these six the
    source mentions, six at most: the entry of the hash functions, marked
    quantum safe, adds none. *)
Theorem quantum_assessor_reports_its_six_indicators :
  forall code : string,
    (_assess_quantum_resistance code = [] <->
     Forall (fun indicator => ~ Spec.mentions code indicator)
            Props.assessed_indicators) /\
    List.length (_assess_quantum_resistance code)
    = List.length (filter (fun indicator => Py.contains (Py.lower code) indicator)
                          Props.assessed_indicators) /\
    (List.length (_assess_quantum_resistance code) <= 6)%nat.
Proof.
  intros code. rewrite <- no_indicator.
  rewrite assess_quantum_resistance_unfolded. cbv zeta.
  unfold Props.assessed_indicators. cbn [existsb filter].
  destruct (Py.contains (Py.lower code) "ed25519");
    destruct (Py.contains (Py.lower code) "secp256k1");
    destruct (Py.contains (Py.lower code) "ecdsa");
    destruct (Py.contains (Py.lower code) "rsa");
    destruct (Py.contains (Py.lower code) "aes-128");
    destruct (Py.contains (Py.lower code) "aes-192");
    cbn [app orb List.length];
    (split; [split; intros H; first [reflexivity | discriminate H]
            | split; [reflexivity | lia]]).
Qed.

(** X5: when [_is_quantum_resistant] answers false, the quantum assessor
    reports a classical signature scheme, at severity 6. *)
Theorem not_resistant_is_explained_by_a_finding :
  forall code : string,
    _is_quantum_resistant code = false ->
    exists f : Vuln.t,
      In f (_assess_quantum_resistance code) /\
      Vuln.description f = Some Spec.classical_signature_note /\
      Vuln.severity f = Some 6.
Proof.
  intros code H. unfold _is_quantum_resistant in H.
  apply orb_false_iff in H. destruct H as [_ H].
  apply negb_false_iff in H.
  unfold quantum_vulnerable_indicators in H. cbn [existsb] in H.
  rewrite assess_quantum_resistance_unfolded. cbv zeta.
  exists (Vuln.Build (Some "quantum_vulnerable") (Some 6)
            (Some Spec.classical_signature_note)
            (Some "Cryptographic implementation") (Some (F64.lit 95 100))
            (Some "Migrate to CRYSTALS-Dilithium or SPHINCS+")).
  split; [|split; reflexivity].
  destruct (Py.contains (Py.lower code) "ed25519"); [left; reflexivity|].
  destruct (Py.contains (Py.lower code) "secp256k1"); [left; reflexivity|].
  destruct (Py.contains (Py.lower code) "ecdsa"); [left; reflexivity|].
  destruct (Py.contains (Py.lower code) "rsa"); [left; reflexivity|].
  discriminate H.
Qed.

Lemma not_resistant_is_explained_by_a_finding_witness :
  exists f : Vuln.t,
    In f (_assess_quantum_resistance "let key = ed25519::Keypair::new();") /\
    Vuln.description f = Some Spec.classical_signature_note /\
    Vuln.severity f = Some 6.
Proof.
  apply (not_resistant_is_explained_by_a_finding "let key = ed25519::Keypair::new();").
  vm_compute. reflexivity.
Defined.

(** *** The risk level *)

(** X6: with the same findings a higher score never gives a more severe
    risk level. *)
Theorem risk_level_eases_with_the_score :
  forall (low high : Z) (vulnerabilities : list Vuln.t),
    low <= high ->
    (Props.level_rank (_determine_risk_level high vulnerabilities)
     <= Props.level_rank (_determine_risk_level low vulnerabilities))%nat.
Proof.
  intros low high vs H. unfold _determine_risk_level.
  destruct (0 <? _); cbn [orb]; [apply Nat.le_refl|].
  destruct (Z.ltb_spec low 30); destruct (Z.ltb_spec low 50);
    destruct (Z.ltb_spec low 70); destruct (Z.ltb_spec low 85);
    destruct (Z.ltb_spec high 30); destruct (Z.ltb_spec high 50);
    destruct (Z.ltb_spec high 70); destruct (Z.ltb_spec high 85);
    try lia; vm_compute; repeat constructor.
Qed.

Lemma risk_level_eases_with_the_score_witness :
  (Props.level_rank (_determine_risk_level 90 [])
   <= Props.level_rank (_determine_risk_level 40 []))%nat.
Proof. apply (risk_level_eases_with_the_score 40 90 []). lia. Defined.

(** *** The anomaly score *)

(** X7: [_compute_anomaly_score] fails, as the indexing [features[7]] does,
    exactly on a vector of fewer than eight features. *)
Theorem anomaly_score_needs_eight_features :
  forall features : list Q,
    _compute_anomaly_score features = None <-> (List.length features < 8)%nat.
Proof.
  intros features. split.
  - intros H. destruct (Nat.lt_ge_cases (List.length features) 8) as [Hl|Hl];
      [exact Hl|].
    rewrite (compute_anomaly_score_defined features Hl) in H. discriminate H.
  - intros H. unfold _compute_anomaly_score.
    do 8 (destruct features as [|? features]; [reflexivity|]).
    cbn [List.length] in H. lia.
Qed.

(** *** The recommendation list *)

(** X8: whatever the findings, the recommendation list ends with the two
    closing recommendations, the one on a professional audit and the one
    on quantum-resistant cryptography, after six other lines at most. *)
Theorem recommendations_end_with_the_closing :
  forall vulnerabilities : list Vuln.t,
    exists front : list string,
      _generate_recommendations vulnerabilities
      = front
        ++ [ "Consider professional audit from Oak Security, Zellic, or Quantstamp";
             "Implement quantum-resistant cryptography for future-proofing" ] /\
      (List.length front <= 6)%nat.
Proof.
  intros vs. rewrite generate_recommendations_shape.
  exists (fst (fold_left add_unique (firstn 5 (sorted_desc vs)) ([], []))
          ++ Spec.omitted_line (List.length vs)).
  split; [rewrite <- app_assoc; reflexivity|].
  rewrite length_app.
  pose proof (add_unique_length (firstn 5 (sorted_desc vs)) [] []) as H1.
  assert (H3 : (List.length (firstn 5 (sorted_desc vs)) <= 5)%nat).
  { rewrite length_firstn. lia. }
  assert (H4 : (List.length (Spec.omitted_line (List.length vs)) <= 1)%nat).
  { unfold Spec.omitted_line. destruct (5 <? _); cbn; lia. }
  cbn [List.length] in H1. lia.
Qed.

Lemma reported_is_categorised (v : Vuln.t) : Spec.reported v -> Spec.categorised v.
Proof.
  intros [t [Ht Hin]]. exists t. split; [exact Ht|].
  cbn in Hin. repeat (destruct Hin as [Hin|Hin]; [subst t; reflexivity|]).
  destruct Hin.
Qed.

(** X9: an analysis never fails; its result carries the address and the
    time given, a score within [0,100], the one the specification
    computes, and the verdict of [_is_quantum_resistant]. *)
Theorem analysis_always_returns_a_bounded_score :
  forall (now : Z) (code addr : string),
    exists r : DetectionResult.t,
      analyze_program now code addr = Some r /\
      DetectionResult.program_address r = addr /\
      DetectionResult.timestamp r = now /\
      DetectionResult.quantum_resistant r = _is_quantum_resistant code /\
      DetectionResult.security_score r
      = Spec.security_score (DetectionResult.vulnerabilities r) /\
      0 <= DetectionResult.security_score r <= 100.
Proof.
  intros now code addr. eexists. split; [apply analyze_program_eq|].
  cbv zeta. cbn [DetectionResult.program_address DetectionResult.timestamp
                 DetectionResult.quantum_resistant DetectionResult.security_score
                 DetectionResult.vulnerabilities].
  fold (Props.all_findings code).
  split; [reflexivity|]. split; [reflexivity|]. split; [reflexivity|].
  assert (Hr : Forall Spec.in_range (Props.all_findings code)).
  { apply (Forall_impl _ (P := fun v => Spec.in_range v /\ Props.complete v /\ Spec.reported v));
      [tauto | apply all_findings_well_formed]. }
  pose proof (after_deductions_le_100 _ Hr) as Hle.
  apply (F64Facts.trunc_le _ 100 ltac:(lia)) in Hle.
  rewrite score_is_folded. unfold Spec.security_score, Spec.clamp. lia.
Qed.

(** X10: the recommendations of an analysis hold no line twice. *)
Theorem analysis_recommendations_are_distinct :
  forall (now : Z) (code addr : string) (r : DetectionResult.t),
    analyze_program now code addr = Some r ->
    NoDup (DetectionResult.recommendations r).
Proof.
  intros now code addr r H.
  rewrite analyze_program_eq in H. cbv zeta in H.
  apply (f_equal (fun o => match o with
                           | Some x => DetectionResult.recommendations x
                           | None => []
                           end)) in H.
  cbn [DetectionResult.recommendations] in H. rewrite <- H.
  fold (Props.all_findings code).
  assert (Hc : Forall Spec.categorised (Props.all_findings code)).
  { apply (Forall_impl _ (P := fun v => Spec.in_range v /\ Props.complete v /\ Spec.reported v));
      [|apply all_findings_well_formed].
    intros v [_ [_ Hv]]. apply reported_is_categorised, Hv. }
  rewrite (generate_recommendations_eq _ Hc). apply recommendations_nodup, Hc.
Qed.

Lemma analysis_recommendations_are_distinct_witness :
  NoDup (match analyze_program 0 Props.risky_call "id" with
         | Some r => DetectionResult.recommendations r
         | None => []
         end).
Proof.
  destruct (analyze_program 0 Props.risky_call "id") as [r|] eqn:E.
  - exact (analysis_recommendations_are_distinct 0 Props.risky_call "id" r E).
  - constructor.
Defined.

(** *** The anomaly detector never reports *)

Lemma starts_with_length (p s : string) :
  Py.starts_with p s = true -> (String.length p <= String.length s)%nat.
Proof.
  revert s. induction p as [|a p IH]; intros [|b s] H; cbn in *;
    try lia; try discriminate.
  apply andb_true_iff in H. destruct H as [_ H]. specialize (IH s H). lia.
Qed.

(** Occurrences that do not overlap fit in the string. *)
Lemma count_from_fits (p : string) (s : string) (skip : nat) :
  (Py.count_from p skip s * String.length p + Nat.min skip (String.length s)
   <= String.length s)%nat.
Proof.
  revert skip. induction s as [|c s IH]; intros skip.
  - cbn. lia.
  - cbn [Py.count_from String.length]. destruct skip as [|k].
    + destruct (Py.starts_with p (String c s)) eqn:E.
      * apply starts_with_length in E. cbn [String.length] in E.
        specialize (IH (String.length p - 1)%nat). cbn [Nat.min]. lia.
      * specialize (IH 0%nat). cbn [Nat.min] in *. lia.
    + specialize (IH k). cbn [Nat.min]. lia.
Qed.

Lemma count_fits (s p : string) :
  p <> EmptyString ->
  (Py.count s p * String.length p <= String.length s)%nat.
Proof.
  intros Hp. unfold Py.count. destruct p as [|a p]; [contradiction|].
  pose proof (count_from_fits (String a p) s 0) as H. cbn [Nat.min] in H. lia.
Qed.

Module Bounds.

Import F64 F64Facts F64More.

Local Open Scope Q_scope.

Lemma add_mono (x x' y y' : Q) : x <= x' -> y <= y' -> add x y <= add x' y'.
Proof. intros Hx Hy. apply rnd_mono, Qplus_le_compat; assumption. Qed.

Lemma sub_mono (x x' y y' : Q) : x <= x' -> y' <= y -> sub x y <= sub x' y'.
Proof.
  intros Hx Hy. apply rnd_mono. unfold Qminus.
  apply Qplus_le_compat; [exact Hx | apply Qopp_le_compat, Hy].
Qed.

Lemma mul_mono (x x' y : Q) : 0 <= y -> x <= x' -> mul x y <= mul x' y.
Proof. intros Hy Hx. apply rnd_mono, Qmult_le_compat_r; assumption. Qed.

Lemma div_mono (x x' d : Q) : 0 < d -> x <= x' -> div x d <= div x' d.
Proof.
  intros Hd Hx. apply rnd_mono. unfold Qdiv.
  apply Qmult_le_compat_r; [exact Hx|]. apply Qlt_le_weak, Qinv_lt_0_compat, Hd.
Qed.

Lemma abs_le (x b : Q) : - b <= x -> x <= b -> abs x <= b.
Proof. intros H1 H2. apply Qabs_Qle_condition. split; assumption. Qed.

Lemma max_ge_l (x y : Q) : x <= max x y.
Proof.
  unfold max, ltb. destruct (Qle_bool y x) eqn:E; cbn [negb]; [apply Qle_refl|].
  destruct (Qlt_le_dec x y) as [H|H]; [apply Qlt_le_weak, H|].
  apply Qle_bool_iff in H. congruence.
Qed.

Lemma fold_max_ge (l : list Q) (x : Q) : x <= fold_left max l x.
Proof.
  revert x. induction l as [|y l IH]; intros x; cbn [fold_left].
  - apply Qle_refl.
  - eapply Qle_trans; [apply max_ge_l|]. apply IH.
Qed.

End Bounds.

Lemma min_le_l (x y : Q) : (F64.min x y <= x)%Q.
Proof.
  unfold F64.min, F64.ltb.
  destruct (Qle_bool x y) eqn:E; cbn [negb]; [apply Qle_refl|].
  destruct (Qlt_le_dec y x) as [H|H]; [apply Qlt_le_weak, H|].
  apply Qle_bool_iff in H. congruence.
Qed.

(** A count of at most the [m]-th part of the length, over a divisor not
    below the length, is a ratio within [0, 1/m]. *)
Lemma ratio_bound (c len : Z) (m : positive) (d x : Q) :
  (0 <= c)%Z -> (Zpos m * c <= len)%Z ->
  (inject_Z len <= d)%Q -> (0 < d)%Q -> (0 <= x)%Q -> (x <= inject_Z c)%Q ->
  (0 <= F64.div x d <= F64.rnd (1 # m))%Q.
Proof.
  intros Hc Hm Hd Hpos Hx0 Hx. unfold F64.div. split.
  - apply F64Facts.rnd_nonneg. apply Qle_shift_div_l; [exact Hpos|].
    rewrite Qmult_0_l. exact Hx0.
  - apply F64Facts.rnd_mono. apply Qle_shift_div_r; [exact Hpos|].
    eapply Qle_trans; [exact Hx|].
    apply (Qle_trans _ ((1 # m) * inject_Z len)).
    + unfold Qle, Qmult, inject_Z. cbn [Qnum Qden].
      rewrite Z.mul_1_l, Z.mul_1_r, Pos.mul_1_r, Z.mul_comm. exact Hm.
    + apply Qmult_le_l; [reflexivity | exact Hd].
Qed.

(** The score of a source stays below 0.45: the checks ratio is at most
    1/8 and the unsafe ratio at most 1/6, the patterns counted being eight
    and six characters long. *)
Lemma source_anomaly_score_is_low (code : string) :
  (Z.of_nat (String.length code) < 2 ^ 53)%Z ->
  (Spec.anomaly_score (_extract_features code) <= F64.lit 45 100)%Q.
Proof.
  intros Hlen.
  pose proof (count_fits code "require!" ltac:(discriminate)) as H3.
  pose proof (count_fits code "unsafe" ltac:(discriminate)) as H7.
  cbn [String.length] in H3, H7.
  set (len := Z.of_nat (String.length code)) in *.
  set (c3 := Z.of_nat (Py.count code "require!")).
  set (c7 := Z.of_nat (Py.count code "unsafe")).
  assert (Hc3 : (0 <= c3 /\ 8 * c3 <= len)%Z) by (subst c3 len; lia).
  assert (Hc7 : (0 <= c7 /\ 6 * c7 <= len)%Z) by (subst c7 len; lia).
  assert (Hlen0 : (0 <= len)%Z) by (subst len; lia).
  unfold Spec.anomaly_score, _extract_features. cbn [map nth].
  fold len c3 c7.
  match goal with
  | |- context [F64.add (np_max ?arr) ?eps] =>
      set (d := F64.add (np_max arr) eps)
  end.
  assert (Hd : (inject_Z len <= d /\ 0 < d)%Q).
  { subst d. unfold np_max.
    match goal with
    | |- context [fold_left F64.max ?rest ?x] =>
        pose proof (Bounds.fold_max_ge rest x) as Hm;
        set (m := fold_left F64.max rest x) in *
    end.
    pose proof (F64More.of_int_exact len ltac:(lia)) as Hex.
    assert (Hlm : (inject_Z len <= m)%Q) by (rewrite <- Hex; exact Hm).
    assert (Hm0 : (0 <= m)%Q).
    { eapply Qle_trans; [|exact Hlm]. change 0%Q with (inject_Z 0).
      rewrite <- Zle_Qle. exact Hlen0. }
    unfold F64.add. split.
    - rewrite <- Hex at 1. apply F64Facts.rnd_mono.
      rewrite <- (Qplus_0_r (inject_Z len)).
      apply Qplus_le_compat; [exact Hlm | vm_compute; discriminate].
    - apply (Qlt_le_trans _ (F64.rnd (F64.lit 1 10000000000)));
        [vm_compute; reflexivity|].
      apply F64Facts.rnd_mono.
      rewrite <- (Qplus_0_l (F64.lit 1 10000000000)) at 1.
      apply Qplus_le_compat; [exact Hm0 | apply Qle_refl]. }
  destruct Hd as [Hd Hdpos].
  assert (Hf3 : (0 <= F64.div (F64.of_int c3) d <= F64.rnd (1 # 8))%Q).
  { apply (ratio_bound c3 len 8 d); try tauto.
    - unfold F64.of_int. apply F64Facts.rnd_nonneg.
      change 0%Q with (inject_Z 0). rewrite <- Zle_Qle. tauto.
    - rewrite (F64More.of_int_exact c3) by lia. apply Qle_refl. }
  assert (Hf7 : (0 <= F64.div (F64.of_int c7) d <= F64.rnd (1 # 6))%Q).
  { apply (ratio_bound c7 len 6 d); try tauto.
    - unfold F64.of_int. apply F64Facts.rnd_nonneg.
      change 0%Q with (inject_Z 0). rewrite <- Zle_Qle. tauto.
    - rewrite (F64More.of_int_exact c7) by lia. apply Qle_refl. }
  set (f3 := F64.div (F64.of_int c3) d) in *.
  set (f7 := F64.div (F64.of_int c7) d) in *.
  destruct Hf3 as [Hf3lo Hf3hi]. destruct Hf7 as [Hf7lo Hf7hi].
  set (b3 := F64.lit 1 10).
  set (b7 := F64.sub (F64.rnd (1 # 6)) (F64.lit 1 100)).
  assert (Hdev3 : (F64.abs (F64.sub f3 (F64.lit 1 10)) <= b3)%Q).
  { apply Bounds.abs_le.
    - apply (Qle_trans _ (F64.sub 0 (F64.lit 1 10))); [vm_compute; discriminate|].
      apply Bounds.sub_mono; [exact Hf3lo | apply Qle_refl].
    - apply (Qle_trans _ (F64.sub (F64.rnd (1 # 8)) (F64.lit 1 10)));
        [|vm_compute; discriminate].
      apply Bounds.sub_mono; [exact Hf3hi | apply Qle_refl]. }
  assert (Hdev7 : (F64.abs (F64.sub f7 (F64.lit 1 100)) <= b7)%Q).
  { apply Bounds.abs_le.
    - apply (Qle_trans _ (F64.sub 0 (F64.lit 1 100))); [vm_compute; discriminate|].
      apply Bounds.sub_mono; [exact Hf7lo | apply Qle_refl].
    - apply Bounds.sub_mono; [exact Hf7hi | apply Qle_refl]. }
  eapply Qle_trans; [apply min_le_l|].
  apply (Qle_trans _ (F64.div (F64.add b3 (F64.mul b7 (F64.of_int 5))) (F64.of_int 2)));
    [|vm_compute; discriminate].
  apply Bounds.div_mono; [vm_compute; reflexivity|].
  apply Bounds.add_mono; [exact Hdev3|].
  apply Bounds.mul_mono; [vm_compute; discriminate | exact Hdev7].
Qed.

Lemma ml_anomaly_detection_nil (code : string) :
  (Z.of_nat (String.length code) < 2 ^ 53)%Z ->
  anomaly_findings (Spec.anomaly_score (_extract_features code)) = [].
Proof.
  intros Hlen. unfold anomaly_findings.
  pose proof (source_anomaly_score_is_low code Hlen) as H.
  assert (E : F64.ltb (F64.lit 7 10) (Spec.anomaly_score (_extract_features code)) = false).
  { unfold F64.ltb. apply negb_false_iff, Qle_bool_iff.
    eapply Qle_trans; [exact H|]. vm_compute. discriminate. }
  rewrite E. reflexivity.
Qed.

(** X11: on a source of fewer than 2^53 characters the anomaly detector
    reports nothing: a count never exceeds the sixth part of the length, so
    the score stays below 0.45 and never passes 0.70. *)
Theorem anomaly_detector_never_reports :
  forall code : string,
    (Z.of_nat (String.length code) < 2 ^ 53)%Z ->
    _ml_anomaly_detection code = Some [].
Proof.
  intros code Hlen. unfold _ml_anomaly_detection.
  rewrite (compute_anomaly_score_defined (_extract_features code))
    by (rewrite extract_features_length; lia).
  rewrite (ml_anomaly_detection_nil code Hlen). reflexivity.
Qed.

(** The theorem on a source made of the word [unsafe] alone, where the
    unsafe ratio is largest. *)
Lemma anomaly_detector_never_reports_witness :
  _ml_anomaly_detection "unsafeunsafeunsafeunsafe" = Some [].
Proof.
  apply (anomaly_detector_never_reports "unsafeunsafeunsafeunsafe").
  vm_compute. reflexivity.
Defined.

(** *** What a pattern needs to match *)

Module ReFacts.

Import Re.

Local Open Scope nat_scope.

Lemma drop_drop (n m : nat) (s : string) : Py.drop m (Py.drop n s) = Py.drop (n + m) s.
Proof.
  revert s. induction n as [|n IH]; intros s; [reflexivity|].
  destruct s as [|a s]; cbn [Py.drop Nat.add].
  - destruct m; reflexivity.
  - apply IH.
Qed.

Lemma one_char_inv (p : ascii -> bool) (s : string) (k : string -> option string)
  (res : string) :
  one_char p s k = Some res ->
  exists a t, s = String a t /\ p a = true /\ k t = Some res.
Proof.
  unfold one_char. destruct s as [|a t]; [discriminate|].
  destruct (p a) eqn:E; [|discriminate]. intros H. exists a, t. auto.
Qed.

(** The continuation of a match is run on what is left of the text. *)
Lemma exec_continues_on_a_suffix (r : regex) :
  forall (s : string) (k : string -> option string) (res : string),
    exec r s k = Some res -> exists n, k (Py.drop n s) = Some res.
Proof.
  induction r as [| c | | | | r1 IH1 r2 IH2 | r1 IH1 r2 IH2 | r1 IH1 | r1 IH1];
    intros s k res H; cbn [exec] in H.
  - exists 0. exact H.
  - apply one_char_inv in H. destruct H as [a [t [Hs [_ Hk]]]]. subst s.
    exists 1. exact Hk.
  - apply one_char_inv in H. destruct H as [a [t [Hs [_ Hk]]]]. subst s.
    exists 1. exact Hk.
  - apply one_char_inv in H. destruct H as [a [t [Hs [_ Hk]]]]. subst s.
    exists 1. exact Hk.
  - apply one_char_inv in H. destruct H as [a [t [Hs [_ Hk]]]]. subst s.
    exists 1. exact Hk.
  - apply IH1 in H. destruct H as [n1 H]. apply IH2 in H. destruct H as [n2 H].
    exists (n1 + n2). rewrite <- drop_drop. exact H.
  - destruct (exec r1 s k) as [x|] eqn:E.
    + injection H as H. subst x. apply IH1 in E. exact E.
    + apply IH2 in H. exact H.
  - remember (String.length s) as fuel eqn:Ef in H. clear Ef. revert s H.
    induction fuel as [|fuel IHf]; intros s H.
    + exists 0. exact H.
    + match type of H with
      | match ?e with _ => _ end = _ => destruct e as [x|] eqn:E
      end.
      * injection H as H. subst x. apply IH1 in E. destruct E as [n1 E].
        destruct (String.length (Py.drop n1 s) <? String.length s); [|discriminate].
        apply IHf in E. destruct E as [n2 E].
        exists (n1 + n2). rewrite <- drop_drop. exact E.
      * exists 0. exact H.
  - destruct (exec r1 s Some); [discriminate|]. exists 0. exact H.
Qed.

(** A literal text matches only a head equal to it, letter case apart. *)
Lemma exec_text_head (p : string) :
  forall (s : string) (k : string -> option string) (res : string),
    exec (text p) s k = Some res ->
    Py.starts_with (Py.lower p) (Py.lower s) = true.
Proof.
  induction p as [|c p IH]; intros s k res H; cbn [text exec] in H.
  - reflexivity.
  - apply one_char_inv in H. destruct H as [a [t [Hs [Ha Hk]]]]. subst s.
    cbn [Py.lower Py.map_chars Py.starts_with].
    rewrite Ascii.eqb_sym, Ha. cbn [andb]. apply (IH t k res Hk).
Qed.

Lemma lower_drop (n : nat) (s : string) : Py.lower (Py.drop n s) = Py.drop n (Py.lower s).
Proof.
  revert s. induction n as [|n IH]; intros s; [reflexivity|].
  destruct s as [|a s]; [reflexivity|]. cbn [Py.drop Py.lower Py.map_chars]. apply IH.
Qed.

Lemma head_of_suffix_is_inside (p : string) (n : nat) (s : string) :
  Py.starts_with p (Py.drop n s) = true -> Py.contains s p = true.
Proof.
  revert s. induction n as [|n IH]; intros s H.
  - cbn [Py.drop] in H. destruct s; cbn [Py.contains]; rewrite H; reflexivity.
  - destruct s as [|a s]; cbn [Py.drop] in H.
    + cbn [Py.contains]. rewrite H. reflexivity.
    + cbn [Py.contains]. rewrite (IH s H). apply orb_true_r.
Qed.

Lemma starts_with_app (p q s : string) :
  Py.starts_with (p ++ q) s = true -> Py.starts_with p s = true.
Proof.
  revert s. induction p as [|a p IH]; intros s H; [reflexivity|].
  destruct s as [|b s]; cbn in *; [discriminate|].
  apply andb_true_iff in H. destruct H as [Hab H]. rewrite Hab. apply (IH s H).
Qed.

(** A match somewhere in the source. *)
Lemma scan_finds_a_match (r : regex) (s : string) (skip pos : nat) :
  scan r skip pos s <> [] -> exists n, match_here r (Py.drop n s) <> None.
Proof.
  revert skip pos. induction s as [|a s IH]; intros skip pos H; cbn [scan] in H.
  - exists 0. cbn [Py.drop].
    destruct skip; [|exfalso; apply H; reflexivity].
    destruct (match_here r EmptyString); [discriminate|].
    exfalso. apply H. reflexivity.
  - destruct skip as [|k].
    + destruct (match_here r (String a s)) eqn:E.
      * exists 0. cbn [Py.drop]. rewrite E. discriminate.
      * apply IH in H. destruct H as [n H]. exists (S n). exact H.
    + apply IH in H. destruct H as [n H]. exists (S n). exact H.
Qed.

End ReFacts.

(** A match of a catalogue pattern starts, or for the missing-signer
    pattern holds further on, one of the keywords of the pattern. *)
Lemma match_holds_a_keyword (pattern : VulnerabilityPattern.t) (s : string) :
  In pattern patterns ->
  Re.match_here (VulnerabilityPattern.pattern pattern) s <> None ->
  exists (kw : string) (n : nat),
    In kw (Props.keywords (VulnerabilityPattern.vuln_type pattern)) /\
    Py.starts_with kw (Py.lower (Py.drop n s)) = true.
Proof.
  intros Hp H. unfold Re.match_here in H.
  destruct (Re.exec (VulnerabilityPattern.pattern pattern) s Some) as [res|] eqn:E;
    [clear H | contradiction].
  unfold patterns, _initialize_patterns in Hp. cbn [In] in Hp.
  destruct Hp as [Hp|[Hp|[Hp|[Hp|[Hp|[]]]]]]; subst pattern;
    cbn [VulnerabilityPattern.pattern VulnerabilityPattern.vuln_type Props.keywords] in *.
  - unfold missing_signer_re in E. cbn [seq Re.exec] in E.
    match type of E with
    | match ?e with _ => _ end = _ => destruct e; [discriminate|]
    end.
    apply (ReFacts.exec_continues_on_a_suffix any_chars) in E.
    destruct E as [n E]. apply ReFacts.exec_text_head in E.
    exists "transfer", n. split; [left; reflexivity | exact E].
  - unfold integer_overflow_re in E. cbn [seq] in E.
    change (Re.exec (Re.text ".checked_") s
              (fun s1 => Re.exec (Re.Seq (Re.Alt (Re.text "add")
                 (Re.Alt (Re.text "sub") (Re.Alt (Re.text "mul") (Re.text "div"))))
                 (Re.text "(")) s1 Some) = Some res) in E.
    apply ReFacts.exec_text_head in E.
    exists ".checked_", 0%nat. split; [left; reflexivity | exact E].
  - unfold uninitialized_account_re in E. cbn [seq] in E.
    match type of E with
    | Re.exec (Re.Seq (Re.text ?p) ?rest) s Some = _ =>
        change (Re.exec (Re.text p) s (fun s1 => Re.exec rest s1 Some) = Some res) in E
    end.
    apply ReFacts.exec_text_head in E.
    exists "account<'info,", 0%nat. split; [left; reflexivity | exact E].
  - unfold reentrancy_re in E. cbn [seq] in E.
    match type of E with
    | Re.exec (Re.Seq (Re.Alt (Re.text ?p) (Re.text ?q)) ?rest) s Some = _ =>
        change (match Re.exec (Re.text p) s (fun s1 => Re.exec rest s1 Some) with
                | Some x => Some x
                | None => Re.exec (Re.text q) s (fun s1 => Re.exec rest s1 Some)
                end = Some res) in E
    end.
    exists "invoke", 0%nat. split; [left; reflexivity|].
    destruct (Re.exec (Re.text "invoke") s _) eqn:E1.
    + apply ReFacts.exec_text_head in E1. exact E1.
    + apply ReFacts.exec_text_head in E.
      apply (ReFacts.starts_with_app "invoke" "_signed"). exact E.
  - unfold quantum_vulnerable_re in E. cbn [seq] in E.
    match type of E with
    | Re.exec (Re.Seq (Re.Alt (Re.text ?p) (Re.Alt (Re.text ?q) (Re.text ?u))) ?rest)
              s Some = _ =>
        change (match Re.exec (Re.text p) s (fun s1 => Re.exec rest s1 Some) with
                | Some x => Some x
                | None =>
                    match Re.exec (Re.text q) s (fun s1 => Re.exec rest s1 Some) with
                    | Some x => Some x
                    | None => Re.exec (Re.text u) s (fun s1 => Re.exec rest s1 Some)
                    end
                end = Some res) in E
    end.
    destruct (Re.exec (Re.text "ed25519") s _) eqn:E1.
    + apply ReFacts.exec_text_head in E1.
      exists "ed25519", 0%nat. split; [left; reflexivity | exact E1].
    + destruct (Re.exec (Re.text "secp256k1") s _) eqn:E2.
      * apply ReFacts.exec_text_head in E2.
        exists "secp256k1", 0%nat. split; [right; left; reflexivity | exact E2].
      * apply ReFacts.exec_text_head in E.
        exists "ecdsa", 0%nat. split; [right; right; left; reflexivity | exact E].
Qed.

(** X12: on an ASCII source a catalogue pattern reports only if the source
    holds one of its keywords, letter case apart: [transfer] for the
    missing-signer pattern, [.checked_] for integer overflow,
    [account<'info,] for uninitialized accounts, [invoke] for reentrancy,
    a signature scheme name for the quantum pattern. *)
Theorem pattern_reports_only_on_its_keyword :
  forall (code : string) (pattern : VulnerabilityPattern.t),
    Py.isascii code = true ->
    In pattern patterns ->
    _detect_pattern code pattern <> [] ->
    Exists (Spec.mentions code)
           (Props.keywords (VulnerabilityPattern.vuln_type pattern)).
Proof.
  intros code pattern _ Hp H.
  assert (Hf : Re.finditer (VulnerabilityPattern.pattern pattern) code <> []).
  { intros E. apply H. unfold _detect_pattern. rewrite E. reflexivity. }
  apply ReFacts.scan_finds_a_match in Hf. destruct Hf as [n Hf].
  apply (match_holds_a_keyword pattern _ Hp) in Hf.
  destruct Hf as [kw [m [Hkw Hs]]].
  apply Exists_exists. exists kw. split; [exact Hkw|].
  unfold Spec.mentions.
  rewrite ReFacts.drop_drop, ReFacts.lower_drop in Hs.
  apply (ReFacts.head_of_suffix_is_inside _ _ _ Hs).
Qed.

Lemma pattern_reports_only_on_its_keyword_witness :
  Exists (Spec.mentions Props.risky_call)
         (Props.keywords (VulnerabilityPattern.vuln_type (Props.entry 3))).
Proof.
  apply (pattern_reports_only_on_its_keyword _ (Props.entry 3)).
  - vm_compute. reflexivity.
  - unfold Props.entry, patterns, _initialize_patterns. cbn [nth In].
    right. right. right. left. reflexivity.
  - vm_compute. discriminate.
Defined.

(* ================================================================== *)
(** ** Binary64 values: rounding is idempotent *)
(* ================================================================== *)

Module F64Values.

Import F64 F64Facts F64More.

Local Open Scope Q_scope.

Lemma pow2_le_inv (a b : Z) : pow2 a <= pow2 b -> (a <= b)%Z.
Proof. intros H. apply (Qpower_le_compat_l_inv 2); [exact H | reflexivity]. Qed.

Lemma pow2_nonzero (e : Z) : ~ pow2 e == 0.
Proof. apply Qnot_eq_sym, Qlt_not_eq, pow2_pos. Qed.

Lemma rnd_compat (x y : Q) : x == y -> rnd x == rnd y.
Proof.
  intros H. apply Qle_antisym; apply rnd_mono; rewrite H; apply Qle_refl.
Qed.

Lemma rnd_pos_compat (x y : Q) : 0 < x -> x == y -> rnd_pos x == rnd_pos y.
Proof.
  intros Hx H. assert (Hy : 0 < y) by (rewrite <- H; exact Hx).
  apply Qle_antisym; apply rnd_pos_mono; try assumption; rewrite H; apply Qle_refl.
Qed.

Lemma ilog2_compat (x y : Q) : 0 < x -> x == y -> ilog2 x = ilog2 y.
Proof.
  intros Hx H. assert (Hy : 0 < y) by (rewrite <- H; exact Hx).
  destruct (ilog2_spec x Hx) as [A B]. destruct (ilog2_spec y Hy) as [C D].
  assert (A' : pow2 (ilog2 x) <= y) by (rewrite <- H; exact A).
  assert (C' : pow2 (ilog2 y) <= x) by (rewrite H; exact C).
  assert (H1 : (ilog2 x < ilog2 y + 1)%Z)
    by (apply pow2_lt_inv; eapply Qle_lt_trans; eassumption).
  assert (H2 : (ilog2 y < ilog2 x + 1)%Z)
    by (apply pow2_lt_inv; eapply Qle_lt_trans; eassumption).
  lia.
Qed.

(** [k * 2^a / 2^b] is the integer [k * 2^(a-b)] when [b <= a]. *)
Lemma scaled_integer (k a b : Z) :
  (b <= a)%Z -> inject_Z k * pow2 a / pow2 b == inject_Z (k * 2 ^ (a - b)).
Proof.
  intros H. rewrite inject_Z_mult, (pow2_Z (a - b)) by lia.
  replace a with ((a - b) + b)%Z at 1 by lia. rewrite pow2_add. field.
  apply pow2_nonzero.
Qed.

Lemma rnd_pos_of_scaled (k a b : Z) :
  (b <= a)%Z -> ulp_exp (inject_Z k * pow2 a) = b ->
  rnd_pos (inject_Z k * pow2 a) == inject_Z k * pow2 a.
Proof.
  intros Hle Hb. rewrite rnd_pos_eq, Hb.
  rewrite (rne_compat _ _ (scaled_integer k a b Hle)), rne_Z.
  rewrite inject_Z_mult, (pow2_Z (a - b)) by lia.
  rewrite <- Qmult_assoc, <- pow2_add.
  replace (a - b + b)%Z with a by lia. reflexivity.
Qed.

(** A significand of at most 53 bits over an exponent of the format is a
    binary64 value. *)
Lemma rnd_pos_representable (m e : Z) :
  (0 < m <= 2 ^ 53)%Z -> (-1074 <= e)%Z ->
  rnd_pos (inject_Z m * pow2 e) == inject_Z m * pow2 e.
Proof.
  intros [Hm0 Hm] He.
  set (x := inject_Z m * pow2 e).
  assert (Hx : 0 < x).
  { subst x. apply Qmult_lt_0_compat; [|apply pow2_pos].
    change 0 with (inject_Z 0). rewrite <- Zlt_Qlt. exact Hm0. }
  destruct (ilog2_spec x Hx) as [Hlo _].
  assert (Hup : x <= pow2 (53 + e)).
  { subst x. rewrite pow2_add. apply Qmult_le_compat_r; [|apply Qlt_le_weak, pow2_pos].
    rewrite <- (pow2_Z 53) by lia. rewrite <- Zle_Qle. exact Hm. }
  assert (Hk : (ilog2 x <= 53 + e)%Z).
  { apply pow2_le_inv. eapply Qle_trans; eassumption. }
  destruct (Z.le_gt_cases (ulp_exp x) e) as [Hle|Hgt].
  - apply (rnd_pos_of_scaled m e (ulp_exp x)); [exact Hle | reflexivity].
  - assert (Hu : ulp_exp x = (e + 1)%Z) by (unfold ulp_exp in *; lia).
    assert (Hi : ilog2 x = (e + 53)%Z) by (unfold ulp_exp in *; lia).
    assert (Hm' : m = (2 ^ 53)%Z).
    { apply Z.le_antisymm; [exact Hm|].
      rewrite Zle_Qle, (pow2_Z 53) by lia.
      apply Qmult_le_r with (z := pow2 e); [apply pow2_pos|].
      rewrite <- pow2_add. replace (53 + e)%Z with (ilog2 x) by lia. exact Hlo. }
    assert (Ex : x == inject_Z (2 ^ 52) * pow2 (e + 1)).
    { subst x. rewrite Hm'. rewrite (pow2_Z 53), (pow2_Z 52) by lia.
      rewrite <- !pow2_add. replace (52 + (e + 1))%Z with (53 + e)%Z by lia.
      reflexivity. }
    rewrite (rnd_pos_compat _ _ Hx Ex).
    rewrite (rnd_pos_of_scaled (2 ^ 52) (e + 1) (e + 1)).
    + symmetry. exact Ex.
    + lia.
    + transitivity (ulp_exp x); [|exact Hu]. unfold ulp_exp.
      rewrite (ilog2_compat x _ Hx Ex). reflexivity.
Qed.

(** The result of rounding a positive number, as significand and exponent. *)
Lemma rnd_pos_shape (q : Q) :
  0 < q ->
  exists m : Z, (0 <= m <= 2 ^ 53)%Z /\ rnd_pos q == inject_Z m * pow2 (ulp_exp q).
Proof.
  intros Hq. exists (rne (q / pow2 (ulp_exp q))). split; [|apply rnd_pos_eq].
  destruct (ilog2_spec q Hq) as [_ Hhi]. split.
  - apply rne_ge. apply Qle_shift_div_l; [apply pow2_pos|].
    rewrite Qmult_0_l. apply Qlt_le_weak, Hq.
  - apply rne_le. apply Qle_shift_div_r; [apply pow2_pos|].
    rewrite pow2_Z by lia. rewrite <- pow2_add.
    apply Qlt_le_weak. eapply Qlt_le_trans; [exact Hhi|].
    apply pow2_le. unfold ulp_exp. lia.
Qed.

Lemma rnd_of_rnd_pos (q : Q) : 0 < q -> rnd (rnd_pos q) == rnd_pos q.
Proof.
  intros Hq. destruct (rnd_pos_shape q Hq) as [m [[Hm0 Hm] E]].
  assert (He : (-1074 <= ulp_exp q)%Z) by (unfold ulp_exp; lia).
  rewrite (rnd_compat _ _ E), E.
  destruct (Z.eq_dec m 0) as [Z0|NZ].
  - subst m. change (inject_Z 0) with 0.
    rewrite (rnd_compat _ 0 (Qmult_0_l _)), Qmult_0_l. reflexivity.
  - set (y := inject_Z m * pow2 (ulp_exp q)).
    assert (Hy : 0 < y).
    { subst y. apply Qmult_lt_0_compat; [|apply pow2_pos].
      change 0 with (inject_Z 0). rewrite <- Zlt_Qlt. lia. }
    unfold rnd. destruct (Qcompare_spec y 0) as [A|A|A].
    + rewrite A in Hy. discriminate Hy.
    + exfalso. exact (Qlt_irrefl _ (Qlt_trans _ _ _ Hy A)).
    + subst y. apply rnd_pos_representable; lia.
Qed.

Lemma rnd_cases (q : Q) :
  (q == 0 /\ rnd q = 0) \/ (q < 0 /\ rnd q = - rnd_pos (- q))
  \/ (0 < q /\ rnd q = rnd_pos q).
Proof.
  unfold rnd. destruct (Qcompare_spec q 0) as [E|L|G]; auto.
Qed.

Lemma rnd_pos_value (y : Q) : 0 < y -> rnd y == y -> rnd_pos y == y.
Proof.
  intros Hy H. destruct (rnd_cases y) as [[E _]|[[L _]|[_ R]]].
  - rewrite E in Hy. discriminate Hy.
  - exfalso. exact (Qlt_irrefl _ (Qlt_trans _ _ _ Hy L)).
  - rewrite <- R. exact H.
Qed.

(** Rounding a binary64 value gives it back. *)
Lemma rnd_idempotent (q : Q) : rnd (rnd q) == rnd q.
Proof.
  destruct (rnd_cases q) as [[E R]|[[L R]|[G R]]]; rewrite R.
  - reflexivity.
  - assert (Hq : 0 < - q) by (apply Qopp_pos, L).
    pose proof (rnd_of_rnd_pos (- q) Hq) as H.
    pose proof (rnd_pos_nonneg (- q) Hq) as Hn.
    set (y := rnd_pos (- q)) in *.
    destruct (Qlt_le_dec 0 y) as [Hy|Hy].
    + destruct (rnd_cases (- y)) as [[E' _]|[[L' R']|[G' _]]].
      * assert (E0 : y == 0) by (rewrite <- (Qopp_involutive y), E'; reflexivity).
        rewrite E0 in Hy. discriminate Hy.
      * rewrite R'.
        rewrite (rnd_pos_compat _ _ (Qopp_pos _ L') (Qopp_involutive y)).
        rewrite (rnd_pos_value y Hy H). reflexivity.
      * exfalso. apply (Qlt_irrefl 0). eapply Qlt_trans; [exact G'|].
        apply (Qopp_lt_compat 0 y), Hy.
    + assert (E0 : y == 0) by (apply Qle_antisym; assumption).
      assert (E1 : - y == 0) by (rewrite E0; reflexivity).
      rewrite (rnd_compat _ 0 E1), E1. reflexivity.
  - apply rnd_of_rnd_pos, G.
Qed.

(** Subtracting a non-negative amount from a binary64 value does not raise
    it. *)
Lemma sub_nonneg_le (x d : Q) : rnd x == x -> 0 <= d -> sub x d <= x.
Proof.
  intros Hx Hd. unfold sub. rewrite <- Hx at 2. apply rnd_mono.
  rewrite <- (Qplus_0_r x) at 2. unfold Qminus.
  apply Qplus_le_compat; [apply Qle_refl|].
  apply (Qopp_le_compat 0 d), Hd.
Qed.

Lemma trunc_nonneg (x : Q) : 0 <= x -> trunc x = Qfloor x.
Proof.
  intros H. destruct x as [n d]. unfold trunc, Qfloor. cbn [Qnum Qden].
  unfold Qle in H. cbn in H. apply Z.quot_div_nonneg; lia.
Qed.

Lemma trunc_neg (x : Q) : x < 0 -> trunc x = Qceiling x.
Proof.
  intros H. destruct x as [n d]. unfold trunc, Qceiling, Qfloor, Qopp.
  cbn [Qnum Qden]. unfold Qlt in H. cbn in H.
  rewrite <- (Z.opp_involutive n) at 1.
  rewrite Z.quot_opp_l by lia. rewrite Z.quot_div_nonneg by lia. reflexivity.
Qed.

(** [int] keeps the order. *)
Lemma trunc_mono (x y : Q) : x <= y -> (trunc x <= trunc y)%Z.
Proof.
  intros H. destruct (Qlt_le_dec x 0) as [Hx|Hx]; destruct (Qlt_le_dec y 0) as [Hy|Hy].
  - rewrite !trunc_neg by assumption. apply Qceiling_resp_le, H.
  - rewrite (trunc_neg x Hx), (trunc_nonneg y Hy).
    apply (Z.le_trans _ 0).
    + rewrite <- (Qceiling_Z 0). apply Qceiling_resp_le, Qlt_le_weak, Hx.
    + rewrite <- (Qfloor_Z 0). apply Qfloor_resp_le, Hy.
  - exfalso. apply (Qlt_irrefl 0).
    eapply Qle_lt_trans; [exact Hx|]. eapply Qle_lt_trans; eassumption.
  - rewrite !trunc_nonneg by assumption. apply Qfloor_resp_le, H.
Qed.

End F64Values.

(** *** The anomaly score of a source *)

Module F64Scaling.

Import F64 F64Facts F64More F64Values.

Local Open Scope Q_scope.

Lemma ilog2_unique (q : Q) (i : Z) :
  0 < q -> pow2 i <= q -> q < pow2 (i + 1) -> ilog2 q = i.
Proof.
  intros Hq Hlo Hhi. destruct (ilog2_spec q Hq) as [Slo Shi].
  assert (H1 : (i < ilog2 q + 1)%Z).
  { apply pow2_lt_inv. eapply Qle_lt_trans; eassumption. }
  assert (H2 : (ilog2 q < i + 1)%Z).
  { apply pow2_lt_inv. eapply Qle_lt_trans; eassumption. }
  lia.
Qed.

Lemma ilog2_scaled (q : Q) (k : Z) : 0 < q -> ilog2 (q * pow2 k) = (ilog2 q + k)%Z.
Proof.
  intros Hq. destruct (ilog2_spec q Hq) as [Slo Shi].
  pose proof (pow2_pos k) as Hk.
  apply ilog2_unique.
  - apply Qmult_lt_0_compat; assumption.
  - rewrite pow2_add. apply Qmult_le_compat_r; [exact Slo | apply Qlt_le_weak, Hk].
  - replace (ilog2 q + k + 1)%Z with ((ilog2 q + 1) + k)%Z by lia.
    rewrite pow2_add. apply Qmult_lt_compat_r; assumption.
Qed.

(** Scaling by a power of two commutes with rounding, away from the
    subnormal range. *)
Lemma rnd_pos_scaled (q : Q) (k : Z) :
  1 <= q -> (0 <= k)%Z -> rnd_pos (q * pow2 k) == rnd_pos q * pow2 k.
Proof.
  intros Hq Hk.
  assert (Hq0 : 0 < q) by (eapply Qlt_le_trans; [|exact Hq]; reflexivity).
  assert (Hi : (0 <= ilog2 q)%Z).
  { change 0%Z with (ilog2 1). apply ilog2_mono; [reflexivity | exact Hq]. }
  rewrite (rnd_pos_eq (q * pow2 k)), (rnd_pos_eq q).
  unfold ulp_exp. rewrite (ilog2_scaled q k Hq0).
  rewrite !Z.max_l by lia.
  replace (ilog2 q + k - 52)%Z with ((ilog2 q - 52) + k)%Z by lia.
  rewrite (rne_compat (q * pow2 k / pow2 (ilog2 q - 52 + k)) (q / pow2 (ilog2 q - 52))).
  - rewrite pow2_add. ring.
  - rewrite pow2_add. field. split; apply pow2_nonzero.
Qed.

Lemma rnd_of_pos (q : Q) : 0 < q -> rnd q = rnd_pos q.
Proof.
  intros Hq. destruct (rnd_cases q) as [[H _]|[[H _]|[_ H]]].
  - rewrite H in Hq. exfalso. exact (Qlt_irrefl 0 Hq).
  - exfalso. apply (Qlt_irrefl 0). eapply Qlt_trans; eassumption.
  - exact H.
Qed.

Lemma of_int_scaled (c k : Z) :
  (0 <= c)%Z -> (0 <= k)%Z -> of_int (c * 2 ^ k) == of_int c * pow2 k.
Proof.
  intros Hc Hk. unfold of_int.
  destruct (Z.eq_dec c 0) as [E|E].
  - subst c. rewrite Z.mul_0_l. change (rnd (inject_Z 0)) with 0. ring.
  - assert (Hc1 : 1 <= inject_Z c).
    { change 1 with (inject_Z 1). rewrite <- Zle_Qle. lia. }
    assert (Hp : 0 < inject_Z c) by (eapply Qlt_le_trans; [|exact Hc1]; reflexivity).
    assert (Hs : inject_Z (c * 2 ^ k) == inject_Z c * pow2 k).
    { rewrite inject_Z_mult, (pow2_Z k Hk). reflexivity. }
    assert (Hp' : 0 < inject_Z c * pow2 k).
    { apply Qmult_lt_0_compat; [exact Hp | apply pow2_pos]. }
    rewrite (rnd_compat _ _ Hs).
    rewrite (rnd_of_pos _ Hp'), (rnd_of_pos _ Hp).
    apply rnd_pos_scaled; assumption.
Qed.




Lemma mul_comm (x y : Q) : mul x y = mul y x.
Proof.
  unfold mul. f_equal. unfold Qmult.
  rewrite (Z.mul_comm (Qnum x)), (Pos.mul_comm (Qden x)). reflexivity.
Qed.

End F64Scaling.





(** A count of at most the [m]-th part of the length, once it is a float,
    over a divisor not below the float of the length, is a ratio within
    [0, 1/m] for [m] a power of two. *)
Lemma scaled_ratio_bound (c len k : Z) (d : Q) :
  (0 <= c)%Z -> (0 <= k)%Z -> (c * 2 ^ k <= len)%Z ->
  (F64.of_int len <= d)%Q -> (0 < d)%Q ->
  (0 <= F64.div (F64.of_int c) d <= F64.rnd (F64.pow2 (- k)))%Q.
Proof.
  intros Hc Hk Hm Hd Hpos.
  assert (Hx0 : (0 <= F64.of_int c)%Q).
  { unfold F64.of_int. apply F64Facts.rnd_nonneg.
    change 0%Q with (inject_Z 0). rewrite <- Zle_Qle. exact Hc. }
  unfold F64.div. split.
  - apply F64Facts.rnd_nonneg. apply Qle_shift_div_l; [exact Hpos|].
    rewrite Qmult_0_l. exact Hx0.
  - apply F64Facts.rnd_mono. apply Qle_shift_div_r; [exact Hpos|].
    assert (Hs : (F64.of_int c * F64.pow2 k <= d)%Q).
    { rewrite <- (F64Scaling.of_int_scaled c k Hc Hk).
      eapply Qle_trans; [|exact Hd].
      unfold F64.of_int. apply F64Facts.rnd_mono. rewrite <- Zle_Qle. exact Hm. }
    assert (E : (F64.of_int c == F64.pow2 (- k) * (F64.of_int c * F64.pow2 k))%Q).
    { rewrite (Qmult_comm (F64.of_int c)), Qmult_assoc, F64More.pow2_opp. ring. }
    rewrite E. apply Qmult_le_l; [apply F64Facts.pow2_pos | exact Hs].
Qed.

(** The score of a source stays at or below 0.65, under the threshold 0.70
    of the detector: the text counted for the checks is eight characters
    long and the one for unsafe blocks six, so the checks ratio is at most
    1/8 and the unsafe ratio at most 1/4. *)
Lemma source_anomaly_score_bounds (code : string) :
  (0 <= Spec.anomaly_score (_extract_features code) <= F64.lit 65 100)%Q.
Proof.
  pose proof (count_fits code "require!" ltac:(discriminate)) as H3.
  pose proof (count_fits code "unsafe" ltac:(discriminate)) as H7.
  cbn [String.length] in H3, H7.
  set (len := Z.of_nat (String.length code)) in *.
  set (c3 := Z.of_nat (Py.count code "require!")).
  set (c7 := Z.of_nat (Py.count code "unsafe")).
  assert (Hc3 : (0 <= c3 /\ c3 * 2 ^ 3 <= len)%Z) by (subst c3 len; lia).
  assert (Hc7 : (0 <= c7 /\ c7 * 2 ^ 2 <= len)%Z) by (subst c7 len; lia).
  assert (Hlen0 : (0 <= len)%Z) by (subst len; lia).
  unfold Spec.anomaly_score, _extract_features. cbn [map nth].
  fold len c3 c7.
  match goal with
  | |- context [F64.add (np_max ?arr) ?eps] =>
      set (d := F64.add (np_max arr) eps)
  end.
  assert (Hd : (F64.of_int len <= d /\ 0 < d)%Q).
  { subst d. unfold np_max.
    match goal with
    | |- context [fold_left F64.max ?rest ?x] =>
        pose proof (Bounds.fold_max_ge rest x) as Hm;
        set (m := fold_left F64.max rest x) in *
    end.
    assert (Hm0 : (0 <= m)%Q).
    { eapply Qle_trans; [|exact Hm]. unfold F64.of_int. apply F64Facts.rnd_nonneg.
      change 0%Q with (inject_Z 0). rewrite <- Zle_Qle. exact Hlen0. }
    unfold F64.add. split.
    - apply (Qle_trans _ (F64.rnd (F64.of_int len))).
      + unfold F64.of_int. rewrite F64Values.rnd_idempotent. apply Qle_refl.
      + apply F64Facts.rnd_mono.
        rewrite <- (Qplus_0_r (F64.of_int len)).
        apply Qplus_le_compat; [exact Hm | vm_compute; discriminate].
    - apply (Qlt_le_trans _ (F64.rnd (F64.lit 1 10000000000)));
        [vm_compute; reflexivity|].
      apply F64Facts.rnd_mono.
      rewrite <- (Qplus_0_l (F64.lit 1 10000000000)) at 1.
      apply Qplus_le_compat; [exact Hm0 | apply Qle_refl]. }
  destruct Hd as [Hd Hdpos].
  pose proof (scaled_ratio_bound c3 len 3 d ltac:(tauto) ltac:(lia) ltac:(tauto) Hd Hdpos)
    as [Hf3lo Hf3hi].
  pose proof (scaled_ratio_bound c7 len 2 d ltac:(tauto) ltac:(lia) ltac:(tauto) Hd Hdpos)
    as [Hf7lo Hf7hi].
  set (f3 := F64.div (F64.of_int c3) d) in *.
  set (f7 := F64.div (F64.of_int c7) d) in *.
  set (b3 := F64.lit 1 10).
  set (b7 := F64.sub (F64.rnd (F64.pow2 (- 2))) (F64.lit 1 100)).
  assert (Hdev3 : (F64.abs (F64.sub f3 (F64.lit 1 10)) <= b3)%Q).
  { apply Bounds.abs_le.
    - apply (Qle_trans _ (F64.sub 0 (F64.lit 1 10))); [vm_compute; discriminate|].
      apply Bounds.sub_mono; [exact Hf3lo | apply Qle_refl].
    - apply (Qle_trans _ (F64.sub (F64.rnd (F64.pow2 (- 3))) (F64.lit 1 10)));
        [|vm_compute; discriminate].
      apply Bounds.sub_mono; [exact Hf3hi | apply Qle_refl]. }
  assert (Hdev7 : (F64.abs (F64.sub f7 (F64.lit 1 100)) <= b7)%Q).
  { apply Bounds.abs_le.
    - apply (Qle_trans _ (F64.sub 0 (F64.lit 1 100))); [vm_compute; discriminate|].
      apply Bounds.sub_mono; [exact Hf7lo | apply Qle_refl].
    - apply Bounds.sub_mono; [exact Hf7hi | apply Qle_refl]. }
  split.
  - unfold F64.min. destruct (F64.ltb _ _); [vm_compute; discriminate|].
    unfold F64.div. apply F64Facts.rnd_nonneg.
    apply Qle_shift_div_l; [vm_compute; reflexivity|]. rewrite Qmult_0_l.
    unfold F64.add. apply F64Facts.rnd_nonneg.
    apply (Qle_trans _ (0 + 0)%Q); [apply Qle_refl|].
    apply Qplus_le_compat; [apply Qabs_nonneg|].
    unfold F64.mul. apply F64Facts.rnd_nonneg.
    apply Qmult_le_0_compat; [apply Qabs_nonneg | vm_compute; discriminate].
  - eapply Qle_trans; [apply min_le_l|].
    apply (Qle_trans _ (F64.div (F64.add b3 (F64.mul b7 (F64.of_int 5))) (F64.of_int 2)));
      [|vm_compute; discriminate].
    apply Bounds.div_mono; [vm_compute; reflexivity|].
    apply Bounds.add_mono; [exact Hdev3|].
    apply Bounds.mul_mono; [vm_compute; discriminate | exact Hdev7].
Qed.


(** No source reaches the threshold of the anomaly detector. *)
Lemma anomaly_findings_nil (code : string) :
  anomaly_findings (Spec.anomaly_score (_extract_features code)) = [].
Proof.
  unfold anomaly_findings, F64.ltb.
  assert (E : Qle_bool (Spec.anomaly_score (_extract_features code)) (F64.lit 7 10) = true).
  { apply Qle_bool_iff. eapply Qle_trans; [apply source_anomaly_score_bounds|].
    vm_compute. discriminate. }
  rewrite E. reflexivity.
Qed.


(** *** The score against the findings *)

Lemma after_deductions_fold (vs : list Vuln.t) :
  Spec.after_deductions vs = fold_left Props.deduct vs (F64.of_int 100).
Proof. reflexivity. Qed.

Lemma deduct_is_value (x : Q) (v : Vuln.t) :
  (F64.rnd (Props.deduct x v) == Props.deduct x v)%Q.
Proof. unfold Props.deduct, F64.sub. apply F64Values.rnd_idempotent. Qed.

Lemma fold_deduct_is_value (vs : list Vuln.t) (x : Q) :
  (F64.rnd x == x)%Q ->
  (F64.rnd (fold_left Props.deduct vs x) == fold_left Props.deduct vs x)%Q.
Proof.
  revert x. induction vs as [|v vs IH]; intros x Hx; cbn [fold_left].
  - exact Hx.
  - apply IH, deduct_is_value.
Qed.

Lemma fold_deduct_le (ws : list Vuln.t) (x : Q) :
  (F64.rnd x == x)%Q -> Forall Spec.in_range ws ->
  (fold_left Props.deduct ws x <= x)%Q.
Proof.
  revert x. induction ws as [|v ws IH]; intros x Hx Hall; cbn [fold_left].
  - apply Qle_refl.
  - inversion Hall as [|? ? Hv Hws]; subst.
    eapply Qle_trans; [apply IH; [apply deduct_is_value | exact Hws]|].
    unfold Props.deduct. apply F64Values.sub_nonneg_le; [exact Hx|].
    apply deduction_nonneg, Hv.
Qed.

(** X13: with findings within the ranges of the data model, further
    findings never raise the security score. *)
Theorem more_findings_never_raise_the_score :
  forall vulnerabilities more : list Vuln.t,
    Forall Spec.in_range vulnerabilities ->
    Forall Spec.in_range more ->
    _calculate_security_score (vulnerabilities ++ more)
    <= _calculate_security_score vulnerabilities.
Proof.
  intros vs ws _ Hws. rewrite !score_is_folded, !after_deductions_fold.
  rewrite fold_left_app.
  apply Z.max_le_compat_l. apply F64Values.trunc_mono.
  apply fold_deduct_le; [|exact Hws].
  apply fold_deduct_is_value. vm_compute. reflexivity.
Qed.

Lemma more_findings_never_raise_the_score_witness :
  _calculate_security_score (Samples.one_critical_finding ++ Samples.seven_findings)
  <= _calculate_security_score Samples.one_critical_finding.
Proof.
  apply (more_findings_never_raise_the_score
           Samples.one_critical_finding Samples.seven_findings).
  - repeat constructor; vm_compute; discriminate.
  - repeat constructor; vm_compute; discriminate.
Defined.

Lemma deduction_le_10 (v : Vuln.t) :
  Spec.in_range v ->
  (F64.mul (F64.of_int (get (Vuln.severity v) 5%Z))
           (get (Vuln.confidence v) (F64.lit 5 10)) <= 10)%Q.
Proof.
  intros [[Hs0 Hs] [Hc0 Hc]]. unfold F64.mul.
  replace 10%Q with (F64.rnd (10 * 1)) by (vm_compute; reflexivity).
  apply F64Facts.rnd_mono.
  apply (Qle_trans _ (10 * get (Vuln.confidence v) (F64.lit 5 10))).
  - apply Qmult_le_compat_r; [|exact Hc0].
    unfold F64.of_int. replace 10%Q with (F64.rnd (inject_Z 10)) by (vm_compute; reflexivity).
    apply F64Facts.rnd_mono. rewrite <- Zle_Qle. exact Hs.
  - apply Qmult_le_l; [reflexivity | exact Hc].
Qed.

Lemma fold_deduct_ge (vs : list Vuln.t) (x : Q) (k : Z) :
  Forall Spec.in_range vs ->
  0 <= k - 10 * Z.of_nat (List.length vs) -> k <= 100 ->
  (inject_Z k <= x)%Q ->
  (inject_Z (k - 10 * Z.of_nat (List.length vs)) <= fold_left Props.deduct vs x)%Q.
Proof.
  revert x k. induction vs as [|v vs IH]; intros x k Hall Hk Hk100 Hx;
    cbn [fold_left List.length].
  - replace (k - 10 * Z.of_nat 0) with k by lia. exact Hx.
  - inversion Hall as [|? ? Hv Hvs]; subst.
    cbn [List.length] in Hk.
    replace (k - 10 * Z.of_nat (S (List.length vs)))
      with ((k - 10) - 10 * Z.of_nat (List.length vs)) by lia.
    apply IH; [exact Hvs | lia | lia|].
    unfold Props.deduct, F64.sub.
    rewrite <- (F64More.of_int_exact (k - 10)) by lia.
    unfold F64.of_int. apply F64Facts.rnd_mono.
    replace (k - 10) with (k + (-10)) by lia. rewrite inject_Z_plus.
    change (inject_Z (-10)) with (- (10))%Q. unfold Qminus.
    apply Qplus_le_compat; [exact Hx|].
    apply Qopp_le_compat. apply deduction_le_10, Hv.
Qed.

(** X14: a finding within the ranges of the data model costs ten points at
    most: the score of [n] such findings is at least 100 - 10 n. *)
Theorem each_finding_costs_at_most_ten_points :
  forall vulnerabilities : list Vuln.t,
    Forall Spec.in_range vulnerabilities ->
    100 - 10 * Z.of_nat (List.length vulnerabilities)
    <= _calculate_security_score vulnerabilities.
Proof.
  intros vs Hall. rewrite score_is_folded, after_deductions_fold.
  destruct (Z.le_gt_cases 0 (100 - 10 * Z.of_nat (List.length vs))) as [Hk|Hk]; [|lia].
  apply (Z.le_trans _ (F64.trunc (fold_left Props.deduct vs (F64.of_int 100))));
    [|lia].
  apply F64More.trunc_ge; [exact Hk|].
  apply fold_deduct_ge; [exact Hall | exact Hk | lia|].
  vm_compute. discriminate.
Qed.

Lemma each_finding_costs_at_most_ten_points_witness :
  100 - 10 * Z.of_nat (List.length Samples.seven_findings)
  <= _calculate_security_score Samples.seven_findings.
Proof.
  apply (each_finding_costs_at_most_ten_points Samples.seven_findings).
  repeat constructor; vm_compute; discriminate.
Defined.

(** *** The normalised features *)

Module Features.

Import F64 F64Facts F64More F64Values.

Local Open Scope Q_scope.

Lemma max_ge_r (x y : Q) : y <= max x y.
Proof.
  unfold max, ltb. destruct (Qle_bool y x) eqn:E; cbn [negb]; [|apply Qle_refl].
  apply Qle_bool_iff, E.
Qed.

Lemma max_is_value (x y : Q) : rnd x == x -> rnd y == y -> rnd (max x y) == max x y.
Proof. intros Hx Hy. unfold max. destruct (ltb x y); assumption. Qed.

Lemma fold_max_ge_all (l : list Q) (a : Q) :
  Forall (fun x => x <= fold_left max l a) (a :: l).
Proof.
  revert a. induction l as [|y l IH]; intros a; cbn [fold_left].
  - constructor; [apply Qle_refl | constructor].
  - specialize (IH (max a y)). inversion IH as [|? ? Hm Hl]; subst.
    constructor; [|constructor; [|exact Hl]].
    + eapply Qle_trans; [apply Bounds.max_ge_l | exact Hm].
    + eapply Qle_trans; [apply max_ge_r | exact Hm].
Qed.

Lemma fold_max_is_value (l : list Q) (a : Q) :
  rnd a == a -> Forall (fun x => rnd x == x) l ->
  rnd (fold_left max l a) == fold_left max l a.
Proof.
  revert a. induction l as [|y l IH]; intros a Ha Hl; cbn [fold_left].
  - exact Ha.
  - inversion Hl as [|? ? Hy Hl']; subst.
    apply IH; [apply max_is_value; assumption | exact Hl'].
Qed.

(** Dividing non-negative binary64 values by their maximum plus a small
    positive amount gives ratios within [0,1]. *)
Lemma normalised_within_unit (a : Q) (l : list Q) (eps : Q) :
  Forall (fun x => rnd x == x /\ 0 <= x) (a :: l) ->
  0 <= eps -> 0 < rnd eps ->
  Forall (fun f => 0 <= f <= 1)
         (map (fun x => div x (add (fold_left max l a) eps)) (a :: l)).
Proof.
  intros Hall Heps Hreps.
  set (m := fold_left max l a).
  assert (Hv : Forall (fun x => rnd x == x) (a :: l))
    by (apply (Forall_impl _ (P := fun x => rnd x == x /\ 0 <= x)); [tauto | exact Hall]).
  assert (Hm : rnd m == m).
  { inversion Hv; subst. apply fold_max_is_value; assumption. }
  pose proof (fold_max_ge_all l a) as Hge. fold m in Hge.
  assert (Hm0 : 0 <= m).
  { inversion Hall as [|? ? [_ Ha] _]; subst. inversion Hge; subst.
    eapply Qle_trans; eassumption. }
  assert (Hd : m <= add m eps).
  { unfold add. rewrite <- Hm at 1. apply rnd_mono.
    rewrite <- (Qplus_0_r m) at 1. apply Qplus_le_compat; [apply Qle_refl | exact Heps]. }
  assert (Hdpos : 0 < add m eps).
  { unfold add. eapply Qlt_le_trans; [exact Hreps|]. apply rnd_mono.
    rewrite <- (Qplus_0_l eps) at 1. apply Qplus_le_compat; [exact Hm0 | apply Qle_refl]. }
  apply Forall_forall. intros f Hf. apply in_map_iff in Hf.
  destruct Hf as [x [Hx Hin]]. subst f.
  rewrite Forall_forall in Hall, Hge.
  destruct (Hall x Hin) as [_ Hx0]. specialize (Hge x Hin).
  unfold div. split.
  - apply rnd_nonneg. apply Qle_shift_div_l; [exact Hdpos|].
    rewrite Qmult_0_l. exact Hx0.
  - replace 1 with (rnd 1) by (vm_compute; reflexivity).
    apply rnd_mono. apply Qle_shift_div_r; [exact Hdpos|].
    rewrite Qmult_1_l. eapply Qle_trans; eassumption.
Qed.

Lemma of_nat_count_is_value (n : nat) :
  rnd (of_int (Z.of_nat n)) == of_int (Z.of_nat n) /\ 0 <= of_int (Z.of_nat n).
Proof.
  split; [apply rnd_idempotent|].
  unfold of_int. apply rnd_nonneg.
  change 0 with (inject_Z 0). rewrite <- Zle_Qle. lia.
Qed.

End Features.

(** X15: the feature vector of a source has eight elements, each within
    [0,1]. *)
Theorem features_are_normalised :
  forall code : string,
    List.length (_extract_features code) = 8%nat /\
    Forall (fun f => (0 <= f <= 1)%Q) (_extract_features code).
Proof.
  intros code. split; [apply extract_features_length|].
  unfold _extract_features. cbv zeta. cbn [map np_max].
  match goal with
  | |- Forall _ (F64.div ?a (F64.add (fold_left F64.max ?l ?a) ?eps) :: _) =>
      apply (Features.normalised_within_unit a l eps)
  end.
  - repeat (constructor; [apply Features.of_nat_count_is_value|]). constructor.
  - vm_compute. discriminate.
  - vm_compute. reflexivity.
Qed.

(** *** Which sources of findings contribute *)

(** X16: the findings of an analysis are those of the five patterns, in
    catalogue order, followed by those of the quantum assessor; the anomaly
    detector and the historical matcher add none. *)
Theorem findings_come_from_patterns_and_quantum_table :
  forall (now : Z) (code addr : string) (r : DetectionResult.t),
    (Z.of_nat (String.length code) < 2 ^ 53)%Z ->
    analyze_program now code addr = Some r ->
    DetectionResult.vulnerabilities r
    = flat_map (fun pattern => _detect_pattern code pattern) patterns
      ++ _assess_quantum_resistance code.
Proof.
  intros now code addr r Hlen H.
  rewrite (analyze_program_findings now code addr r H). unfold Props.all_findings.
  rewrite (ml_anomaly_detection_nil code Hlen). reflexivity.
Qed.

Lemma findings_come_from_patterns_and_quantum_table_witness :
  Props.findings_of (analyze_program 0 Props.risky_call "id")
  = flat_map (fun pattern => _detect_pattern Props.risky_call pattern) patterns
    ++ _assess_quantum_resistance Props.risky_call.
Proof.
  destruct (analyze_program 0 Props.risky_call "id") as [r|] eqn:E.
  - apply (findings_come_from_patterns_and_quantum_table 0 Props.risky_call "id" r);
      [vm_compute; reflexivity | exact E].
  - vm_compute in E. discriminate E.
Defined.

Lemma detect_pattern_needs_keyword (code : string) (pattern : VulnerabilityPattern.t) :
  In pattern patterns ->
  Forall (fun word => ~ Spec.mentions code word) Props.trigger_words ->
  _detect_pattern code pattern = [].
Proof.
  intros Hp Hw.
  destruct (_detect_pattern code pattern) as [|v l] eqn:E; [reflexivity|].
  exfalso.
  assert (Hne : _detect_pattern code pattern <> []) by (rewrite E; discriminate).
  assert (Hf : Re.finditer (VulnerabilityPattern.pattern pattern) code <> []).
  { intros E'. apply Hne. unfold _detect_pattern. rewrite E'. reflexivity. }
  apply ReFacts.scan_finds_a_match in Hf. destruct Hf as [n Hf].
  apply (match_holds_a_keyword pattern _ Hp) in Hf.
  destruct Hf as [kw [m [Hkw Hs]]].
  rewrite ReFacts.drop_drop, ReFacts.lower_drop in Hs.
  apply ReFacts.head_of_suffix_is_inside in Hs.
  rewrite Forall_forall in Hw. apply (Hw kw); [|exact Hs].
  unfold patterns, _initialize_patterns in Hp. cbn [In] in Hp.
  destruct Hp as [Hp|[Hp|[Hp|[Hp|[Hp|[]]]]]]; subst pattern;
    cbn [VulnerabilityPattern.vuln_type Props.keywords In] in Hkw;
    unfold Props.trigger_words; cbn [In]; intuition (subst; tauto).
Qed.

(** X17: an ASCII source that holds none of the ten trigger words, letter
    case apart, is analysed without any finding: score 100, risk MINIMAL,
    the two closing recommendations, quantum resistant. *)
Theorem source_without_trigger_words_is_clean :
  forall (now : Z) (code addr : string),
    Py.isascii code = true ->
    Forall (fun word => ~ Spec.mentions code word) Props.trigger_words ->
    analyze_program now code addr =
    Some (DetectionResult.Build addr [] 100 "MINIMAL" Spec.closing true now).
Proof.
  intros now code addr _ Hw.
  rewrite analyze_program_eq. cbv zeta.
  rewrite (anomaly_findings_nil code).
  assert (Hp : flat_map (fun pattern => _detect_pattern code pattern) patterns = []).
  { unfold patterns, _initialize_patterns. cbn [flat_map].
    rewrite !detect_pattern_needs_keyword;
      first [ reflexivity | exact Hw
            | unfold patterns, _initialize_patterns; cbn [In]; tauto ]. }
  assert (Hq : _assess_quantum_resistance code = []).
  { apply quantum_silence. rewrite Forall_forall in *. intros w Hin. apply Hw.
    unfold Props.assessed_indicators, Props.trigger_words in *. cbn [In] in *.
    tauto. }
  assert (Hr : _is_quantum_resistant code = true).
  { unfold _is_quantum_resistant. apply orb_true_iff. right.
    apply negb_true_iff, no_indicator.
    rewrite Forall_forall in *. intros w Hin. apply Hw.
    unfold quantum_vulnerable_indicators, Props.trigger_words in *. cbn [In] in *.
    tauto. }
  rewrite Hp, Hq, Hr. reflexivity.
Qed.

Lemma source_without_trigger_words_is_clean_witness :
  analyze_program 0 "pub fn noop() -> Result<()> { Ok(()) }" "id" =
  Some (DetectionResult.Build "id" [] 100 "MINIMAL" Spec.closing true 0).
Proof.
  apply (source_without_trigger_words_is_clean 0 "pub fn noop() -> Result<()> { Ok(()) }" "id").
  - vm_compute. reflexivity.
  - repeat constructor; vm_compute; discriminate.
Defined.
